(** * Content-directory entity mappings of the query node

    A shallow embedding of
      - query-node/mappings/content-directory/entity/ignoreOperation.ts
      - query-node/mappings/content-directory/entity/index.ts
    The asynchronous TypeScript functions become computations of a small
    monad that threads the persisted store, records the calls made to the
    external collaborators, and distinguishes the three ways a function
    body can finish: falling through, an explicit [return], a [throw]. *)

From Stdlib Require Import ZArith List String Bool Lia DecimalString.
Import ListNotations.
Local Open Scope Z_scope.
Local Open Scope string_scope.
Local Open Scope list_scope.

Set Implicit Arguments.

(* ================================================================== *)
(** ** JavaScript values used by the mappings *)

(** [Number.prototype.toString()] on an entity id. *)
Definition toString (n : Z) : string := NilZero.string_of_int (Z.to_int n).

(** The double nearest to the integer [x], ties to even: the Number an
    integer-valued computation yields.  Integers up to 2^53 in absolute
    value are their own doubles; beyond, the spacing of the doubles is
    2^(log2 |x| - 52).  Integers beyond the largest finite double are
    outside of this model. *)
Definition Number_ofZ (x : Z) : Z :=
  let a := Z.abs x in
  if Z.ltb a (2 ^ 53) then x
  else
    let e := Z.log2 a - 52 in
    let q := Z.div a (2 ^ e) in
    let r := Z.modulo a (2 ^ e) in
    let half := 2 ^ (e - 1) in
    let q' := if Z.ltb r half then q
              else if Z.ltb half r then q + 1
                   else if Z.even q then q else q + 1 in
    Z.sgn x * (q' * 2 ^ e).

(** [a + b] on integer-valued Numbers: the exact sum, rounded to a
    double. *)
Definition Number_add (a b : Z) : Z := Number_ofZ (a + b).

(** The [id] put in a where-clause.  Every arm but one passes the string
    [entityId.toString()]; one arm passes the method [entityId.toString]
    itself, a function object. *)
Inductive WhereId : Type :=
| IdString (s : string)
| IdFunction.

Definition WhereId_eqb (a b : WhereId) : bool :=
  match a, b with
  | IdString s, IdString t => String.eqb s t
  | IdFunction, IdFunction => true
  | _, _ => false
  end.

(** [IReference] of ../../types, with the two fields the code reads. *)
Record IReference : Type := { entityId : Z; existing : bool }.

(** A raw property value of a create-entity operation or of an extrinsic
    argument: a scalar, or a pointer whose wire tag tells an existing
    entity from one created in the same operation. *)
Inductive IProperty : Type :=
| RawScalar (v : string)
| RawReference (r : IReference).

(** [IEntity] of ../../types, with the two fields the code reads.
    [indexOf] may be left undefined. *)
Record IEntity : Type := { indexOf : option Z; properties : list IProperty }.

(** A decoded property bag, restricted to its Reference-valued fields:
    [prop props "language"] is [props.language]. *)
Definition Props : Type := list (string * IReference).

Fixpoint prop (props : Props) (name : string) : option IReference :=
  match props with
  | [] => None
  | (k, r) :: rest => if String.eqb k name then Some r else prop rest name
  end.

(** A promise object, as obtained from calling an async function without
    [await].  [settled] is the value it resolves to, if it does. *)
Record Promise (A : Type) : Type := { settled : option A }.

(** ToBoolean of an object is [true], whatever the object holds. *)
Definition truthy {A : Type} (_ : Promise A) : bool := true.

(* ================================================================== *)
(** ** Names imported from ../content-dir-consts *)

(** Modelled from the spec: content-dir-consts is not under src/.  The
    enumeration members are the ones the two source files switch on. *)
Inductive ContentDirectoryKnownClasses : Type :=
| CHANNEL | CATEGORY | KNOWNLICENSE | USERDEFINEDLICENSE
| JOYSTREAMMEDIALOCATION | HTTPMEDIALOCATION | VIDEOMEDIA | VIDEO
| LANGUAGE | VIDEOMEDIAENCODING | LICENSE | MEDIALOCATION | FEATUREDVIDEOS.

(** Modelled from the spec: the string value of each member.  They are the
    class names of the spec's KnownClass list and the class-name literals
    that ignoreOperation.ts passes to [getEntity]. *)
Definition className_of (c : ContentDirectoryKnownClasses) : string :=
  match c with
  | CHANNEL => "Channel"
  | CATEGORY => "Category"
  | KNOWNLICENSE => "KnownLicense"
  | USERDEFINEDLICENSE => "UserDefinedLicense"
  | JOYSTREAMMEDIALOCATION => "JoystreamMediaLocation"
  | HTTPMEDIALOCATION => "HttpMediaLocation"
  | VIDEOMEDIA => "VideoMedia"
  | VIDEO => "Video"
  | LANGUAGE => "Language"
  | VIDEOMEDIAENCODING => "VideoMediaEncoding"
  | LICENSE => "License"
  | MEDIALOCATION => "MediaLocation"
  | FEATUREDVIDEOS => "FeaturedVideo"
  end.

Definition allKnownClasses : list ContentDirectoryKnownClasses :=
  [CHANNEL; CATEGORY; KNOWNLICENSE; USERDEFINEDLICENSE;
   JOYSTREAMMEDIALOCATION; HTTPMEDIALOCATION; VIDEOMEDIA; VIDEO;
   LANGUAGE; VIDEOMEDIAENCODING; LICENSE; MEDIALOCATION; FEATUREDVIDEOS].

(** The member a [switch (name)] over the enumeration selects; [None] is
    the [default] arm. *)
Definition switchOn (name : string) : option ContentDirectoryKnownClasses :=
  find (fun c => String.eqb name (className_of c)) allKnownClasses.

(** The property layouts exported by content-dir-consts.  Their contents
    are not under src/; a layout is identified by the name of the constant. *)
Inductive PropertyNamesWithId : Type :=
| categoryPropertyNamesWithId
| channelPropertyNamesWithId
| httpMediaLocationPropertyNamesWithId
| joystreamMediaLocationPropertyNamesWithId
| knownLicensePropertyNamesWIthId
| languagePropertyNamesWIthId
| userDefinedLicensePropertyNamesWithId
| videoMediaEncodingPropertyNamesWithId
| videoMediaPropertyNamesWithId
| videoPropertyNamesWithId
| featuredVideoPropertyNamesWithId
| mediaLocationPropertyNamesWithId
| licensePropertyNamesWithId.

(* ================================================================== *)
(** ** The persisted store *)

(** The generated model classes whose rows the mappings read or write. *)
Inductive Model : Type :=
| Language | VideoMediaEncoding | MediaLocationEntity | Category | Channel
| LicenseEntity | VideoMedia | UserDefinedLicenseEntity | KnownLicenseEntity
| JoystreamMediaLocationEntity | HttpMediaLocationEntity | Video
| FeaturedVideo.

Definition Model_eqb (a b : Model) : bool :=
  match a, b with
  | Language, Language | VideoMediaEncoding, VideoMediaEncoding
  | MediaLocationEntity, MediaLocationEntity | Category, Category
  | Channel, Channel | LicenseEntity, LicenseEntity | VideoMedia, VideoMedia
  | UserDefinedLicenseEntity, UserDefinedLicenseEntity
  | KnownLicenseEntity, KnownLicenseEntity
  | JoystreamMediaLocationEntity, JoystreamMediaLocationEntity
  | HttpMediaLocationEntity, HttpMediaLocationEntity | Video, Video
  | FeaturedVideo, FeaturedVideo => true
  | _, _ => false
  end.

(** A typed row, by its model and its id; the scalar columns play no role
    in the functions embedded here. *)
Record Row : Type := { row_model : Model; row_id : string }.

(** The generic index row. *)
Record ClassEntity : Type :=
  { ce_id : string; ce_classId : Z; ce_version : Z; ce_happenedIn : Z }.

Record DB : Type :=
  { typedRows : list Row;
    classEntities : list ClassEntity;
    nextEntityIdRow : option Z;
    blocks : list Z }.

(** [db.get(Model, { where: { id } })] on the typed rows.  Row ids are
    strings, so a where-clause whose id is a function object selects no
    row. *)
Definition matches (m : Model) (w : WhereId) (r : Row) : bool :=
  Model_eqb (row_model r) m && WhereId_eqb (IdString (row_id r)) w.

Definition lookup (d : DB) (m : Model) (w : WhereId) : option Row :=
  find (matches m w) (typedRows d).

Definition lookupClassEntity (d : DB) (id : string) : option ClassEntity :=
  find (fun c => String.eqb (ce_id c) id) (classEntities d).

(** [db.save(classEntity)]: insert, or replace the row with the same id. *)
Definition saveClassEntity (d : DB) (c : ClassEntity) : DB :=
  {| typedRows := typedRows d;
     classEntities :=
       filter (fun x => negb (String.eqb (ce_id x) (ce_id c))) (classEntities d)
       ++ [c];
     nextEntityIdRow := nextEntityIdRow d;
     blocks := blocks d |}.

(** [db.remove(classEntity)]. *)
Definition removeClassEntity (d : DB) (c : ClassEntity) : DB :=
  {| typedRows := typedRows d;
     classEntities :=
       filter (fun x => negb (String.eqb (ce_id x) (ce_id c))) (classEntities d);
     nextEntityIdRow := nextEntityIdRow d;
     blocks := blocks d |}.

(* ================================================================== *)
(** ** Async computations *)

Inductive HandlerKind : Type := Create | Update | Remove.

(** The calls the two source files make to their collaborators. *)
Inductive Call : Type :=
| DbGet (m : Model) (w : WhereId)
| DbSaveClassEntity (id : string)
| DbRemoveClassEntity (id : string)
| Decode (layout : PropertyNamesWithId)
| Handler (k : HandlerKind) (c : ContentDirectoryKnownClasses) (id : string).

Record World : Type := { db : DB; trace : list Call }.

(** How the body of a function whose return type is [R] finishes a step
    that yields an [A]. *)
Inductive Completion (R A : Type) : Type :=
| Normal (a : A)
| Return (r : R)
| Throw (msg : string).
Arguments Normal {R A} a.
Arguments Return {R A} r.
Arguments Throw {R A} msg.

Definition Async (R A : Type) : Type := World -> Completion R A * World.

Definition ret {R A : Type} (a : A) : Async R A := fun w => (Normal a, w).

Definition return_ {R A : Type} (r : R) : Async R A := fun w => (Return r, w).

Definition throw {R A : Type} (msg : string) : Async R A :=
  fun w => (Throw msg, w).

Definition bind {R A B : Type} (m : Async R A) (k : A -> Async R B)
  : Async R B :=
  fun w =>
    match m w with
    | (Normal a, w1) => k a w1
    | (Return r, w1) => (Return r, w1)
    | (Throw e, w1) => (Throw e, w1)
    end.

Declare Scope async_scope.
Delimit Scope async_scope with async.
Notation "x <- m ;; k" := (bind m (fun x => k))
  (at level 100, m at next level, right associativity) : async_scope.
Notation "m ;;; k" := (bind m (fun _ => k))
  (at level 100, right associativity) : async_scope.
Local Open Scope async_scope.

(** [await f(...)]: run the body of [f] to its end; a [return] of the
    callee is an ordinary value for the caller, a [throw] propagates. *)
Definition await {R R' : Type} (body : Async R R) : Async R' R :=
  fun w =>
    match body w with
    | (Normal r, w1) => (Normal r, w1)
    | (Return r, w1) => (Normal r, w1)
    | (Throw e, w1) => (Throw e, w1)
    end.

(** [f(...)] without [await]: the caller gets the promise at once.  The
    body runs to its end on its own; a rejection stays in the promise. *)
Definition spawn {R R' : Type} (body : Async R R) : Async R' (Promise R) :=
  fun w =>
    match body w with
    | (Normal r, w1) => (Normal {| settled := Some r |}, w1)
    | (Return r, w1) => (Normal {| settled := Some r |}, w1)
    | (Throw _, w1) => (Normal {| settled := None |}, w1)
    end.

Definition log {R : Type} (c : Call) : Async R unit :=
  fun w => (Normal tt, {| db := db w; trace := trace w ++ [c] |}).

(** [for (const x of xs) body], threading the variables the body assigns. *)
Fixpoint forOf {R A S : Type} (xs : list A) (body : A -> S -> Async R S)
  (s : S) : Async R S :=
  match xs with
  | [] => ret s
  | x :: rest => s1 <- body x s ;; forOf rest body s1
  end.

(** [await db.get(Model, { where: { id } })]. *)
Definition db_get {R : Type} (m : Model) (w : WhereId) : Async R (option Row) :=
  log (DbGet m w) ;;; fun wd => (Normal (lookup (db wd) m w), wd).

Definition isSome {A : Type} (o : option A) : bool :=
  match o with Some _ => true | None => false end.

(* ================================================================== *)
(** ** Events and the types of ../../types *)

Inductive Arg : Type :=
| ArgUndefined
| ArgScalar (v : Z)
| ArgValues (vs : list IProperty).

Record SubstrateExtrinsic : Type := { method : string; args : list Arg }.

(** Modelled from the spec: the decoded ledger event
    [{kind, blockNumber, entityId, extrinsic?: {method, args[]}}], with the
    class id an EntityCreated event carries. *)
Record SubstrateEvent : Type :=
  { event_id : string;
    blockNumber : Z;
    param_classId : Z;
    param_entityId : Z;
    extrinsic : option SubstrateExtrinsic }.

Record IWhereCond : Type := { where_id : string }.

Record IDBBlockId : Type := { arg_block : Z; arg_id : string }.

Record IKnownClass : Type := { name : string; classId : Z }.

Record IClassEntity : Type := { c_classId : Z; c_entityId : Z }.

(** [ClassEntityMap]: a JavaScript [Map], which keeps its keys in
    insertion order. *)
Definition ClassEntityMap : Type := list (string * list IEntity).

Fixpoint Map_get (m : ClassEntityMap) (k : string) : option (list IEntity) :=
  match m with
  | [] => None
  | (k', v) :: rest => if String.eqb k' k then Some v else Map_get rest k
  end.

Fixpoint Map_set (m : ClassEntityMap) (k : string) (v : list IEntity)
  : ClassEntityMap :=
  match m with
  | [] => [(k, v)]
  | (k', v') :: rest =>
      if String.eqb k' k then (k, v) :: rest else (k', v') :: Map_set rest k v
  end.

(** The functions the two files import from modules that are not under
    src/: ./create, ./update, ./remove, ../decode and the class registry
    behind ../get-or-create.  The embedding is parametric in them. *)
Class Collaborators : Type :=
  { ICreateEntityOperation : Type;
    (** [getClassName(db, entity, createEntityOperations)] of ./create *)
    getClassName : DB -> IEntity -> list ICreateEntityOperation -> option string;
    (** [decode.setEntityPropertyValues<T>(properties, layout)] *)
    setEntityPropertyValues : list IProperty -> PropertyNamesWithId -> Props;
    (** [decode.setProperties<T>(event, layout)] *)
    setProperties : SubstrateEvent -> PropertyNamesWithId -> Props;
    (** the registry: the known class name of a class id, if any *)
    classNameOfId : Z -> option string;
    (** [createX(arg, props)] and [createX(arg, classEntityMap, props, n)] *)
    createEntity : ContentDirectoryKnownClasses -> IDBBlockId ->
                   option (ClassEntityMap * Z) -> Props -> Async unit unit;
    (** [updateXEntityPropertyValues(db, where, props)] and
        [updateXEntityPropertyValues(db, where, props, n)] *)
    updateEntity : ContentDirectoryKnownClasses -> IWhereCond -> Props ->
                   option Z -> Async unit unit;
    (** [removeX(db, where)] *)
    removeEntity : ContentDirectoryKnownClasses -> IWhereCond ->
                   Async unit unit }.

(* ================================================================== *)
(** ** ignoreOperation.ts *)

Section IgnoreOperation.
Context {ext : Collaborators}.

(** [e.indexOf === entityId] *)
Definition indexOf_is (entityId : Z) (e : IEntity) : bool :=
  match indexOf e with
  | Some i => Z.eqb i entityId
  | None => false
  end.

Definition getEntity (classEntityMap : ClassEntityMap) (className : string)
  (entityId : Z) : bool :=
  match Map_get classEntityMap className with
  | None => true
  | Some newlyCreatedEntities =>
      negb (isSome (find (indexOf_is entityId) newlyCreatedEntities))
  end.

(** The body of the first loop of [transaction]. *)
Definition fileEntity (d : DB)
  (createEntityOperations : list ICreateEntityOperation)
  (classEntityMap : ClassEntityMap) (entity : IEntity) : ClassEntityMap :=
  match getClassName d entity createEntityOperations with
  | Some className =>
      let es := Map_get classEntityMap className in
      Map_set classEntityMap className
        (match es with Some es => es ++ [entity] | None => [entity] end)
  | None => classEntityMap
  end.

(** The first loop of [transaction]. *)
Definition buildClassEntityMap (d : DB)
  (createEntityOperations : list ICreateEntityOperation)
  (entities : list IEntity) : ClassEntityMap :=
  fold_left (fileEntity d createEntityOperations) entities [].

(** [{ where: { id: r.entityId.toString() } }] *)
Definition idString (r : IReference) : WhereId :=
  IdString (toString (entityId r)).

(** [{ where: { id: r.entityId.toString } }]: the method, not its result. *)
Definition idToStringMethod (_ : IReference) : WhereId := IdFunction.

(** One reference check of [transaction]:
    [if (ref) { ignoreOperations = ref.existing ? !(await db.get(M, w))
                                                : getEntity(map, C, ref.entityId)
                if (ignoreOperations) return ignoreOperations }] *)
Definition resolveReference (classEntityMap : ClassEntityMap)
  (ref : option IReference) (M : Model) (whereId : IReference -> WhereId)
  (C : string) (ignoreOperations : bool) : Async bool bool :=
  match ref with
  | Some r =>
      ignoreOperations <-
        (if existing r
         then (row <- db_get M (whereId r) ;; ret (negb (isSome row)))
         else ret (getEntity classEntityMap C (entityId r))) ;;
      if ignoreOperations then return_ ignoreOperations
      else ret ignoreOperations
  | None => ret ignoreOperations
  end.

Definition decode_setEntityPropertyValues {R : Type}
  (properties : list IProperty) (layout : PropertyNamesWithId)
  : Async R Props :=
  log (Decode layout) ;;; ret (setEntityPropertyValues properties layout).

(** The body of the inner loop: the [switch (className)] for one entity. *)
Definition scanEntity (classEntityMap : ClassEntityMap) (className : string)
  (entity : IEntity) (ignoreOperations : bool) : Async bool bool :=
  let properties := properties entity in
  match switchOn className with
  | Some CHANNEL =>
      props <- decode_setEntityPropertyValues properties
                 channelPropertyNamesWithId ;;
      resolveReference classEntityMap (prop props "language")
        Language idString "Language" ignoreOperations
  | Some VIDEOMEDIA =>
      props <- decode_setEntityPropertyValues properties
                 videoMediaPropertyNamesWithId ;;
      ignoreOperations <-
        resolveReference classEntityMap (prop props "encoding")
          VideoMediaEncoding idString "VideoMediaEncoding" ignoreOperations ;;
      resolveReference classEntityMap (prop props "location")
        MediaLocationEntity idString "MediaLocation" ignoreOperations
  | Some VIDEO =>
      props <- decode_setEntityPropertyValues properties
                 videoPropertyNamesWithId ;;
      ignoreOperations <-
        resolveReference classEntityMap (prop props "category")
          Category idString "Category" ignoreOperations ;;
      ignoreOperations <-
        resolveReference classEntityMap (prop props "channel")
          Channel idString "Channel" ignoreOperations ;;
      ignoreOperations <-
        resolveReference classEntityMap (prop props "language")
          Language idString "Language" ignoreOperations ;;
      ignoreOperations <-
        resolveReference classEntityMap (prop props "license")
          LicenseEntity idString "License" ignoreOperations ;;
      resolveReference classEntityMap (prop props "media")
        VideoMedia idString "VideoMedia" ignoreOperations
  | Some LICENSE =>
      props <- decode_setEntityPropertyValues properties
                 licensePropertyNamesWithId ;;
      ignoreOperations <-
        resolveReference classEntityMap (prop props "knownLicense")
          KnownLicenseEntity idString "KnownLicense" ignoreOperations ;;
      resolveReference classEntityMap (prop props "userDefinedLicense")
        UserDefinedLicenseEntity idString "UserDefinedLicense" ignoreOperations
  | Some MEDIALOCATION =>
      props <- decode_setEntityPropertyValues properties
                 mediaLocationPropertyNamesWithId ;;
      ignoreOperations <-
        resolveReference classEntityMap (prop props "joystreamMediaLocation")
          JoystreamMediaLocationEntity idString "JoystreamMediaLocation"
          ignoreOperations ;;
      resolveReference classEntityMap (prop props "httpMediaLocation")
        HttpMediaLocationEntity idString "HttpMediaLocation" ignoreOperations
  | Some FEATUREDVIDEOS =>
      props <- decode_setEntityPropertyValues properties
                 featuredVideoPropertyNamesWithId ;;
      resolveReference classEntityMap (prop props "video")
        Video idToStringMethod "Video" ignoreOperations
  | _ => ret ignoreOperations
  end.

Definition transaction
  (createEntityOperations : list ICreateEntityOperation)
  (entities : list IEntity) : Async bool bool :=
  fun w =>
    let classEntityMap :=
      buildClassEntityMap (db w) createEntityOperations entities in
    let ignoreOperations := false in
    (ignoreOperations <-
       forOf classEntityMap
         (fun '(className, entities) ignoreOperations =>
            forOf entities (scanEntity classEntityMap className)
              ignoreOperations)
         ignoreOperations ;;
     return_ ignoreOperations) w.

(** [ref && !(await db.get(M, { where: { id: ref.entityId.toString() } }))],
    the condition of the single-entity checks. *)
Definition absentFromStore {R : Type} (ref : option IReference) (M : Model)
  : Async R bool :=
  match ref with
  | Some r => row <- db_get M (idString r) ;; ret (negb (isSome row))
  | None => ret false
  end.

Definition channel (props : Props) : Async bool bool :=
  match prop props "language" with
  | Some language =>
      row <- db_get Language (idString language) ;;
      return_ (negb (isSome row))
  | None => return_ false
  end.

Definition videoMedia (props : Props) : Async bool bool :=
  let encoding := prop props "encoding" in
  let location := prop props "location" in
  c <- absentFromStore encoding VideoMediaEncoding ;;
  if c then return_ true else
  c <- absentFromStore location MediaLocationEntity ;;
  if c then return_ true else
  return_ false.

Definition video (props : Props) : Async bool bool :=
  let category := prop props "category" in
  let channel := prop props "channel" in
  let language := prop props "language" in
  let license := prop props "license" in
  let media := prop props "media" in
  c <- absentFromStore category Category ;;
  if c then return_ true else
  c <- absentFromStore channel Channel ;;
  if c then return_ true else
  c <- absentFromStore language Language ;;
  if c then return_ true else
  c <- absentFromStore license LicenseEntity ;;
  if c then return_ true else
  c <- absentFromStore media VideoMedia ;;
  if c then return_ true else
  return_ false.

Definition mediaLocation (props : Props) : Async bool bool :=
  let joystreamMediaLocation := prop props "joystreamMediaLocation" in
  let httpMediaLocation := prop props "httpMediaLocation" in
  c <- absentFromStore joystreamMediaLocation JoystreamMediaLocationEntity ;;
  if c then return_ true else
  c <- absentFromStore httpMediaLocation HttpMediaLocationEntity ;;
  if c then return_ true else
  return_ false.

Definition license (props : Props) : Async bool bool :=
  let knownLicense := prop props "knownLicense" in
  let userDefinedLicense := prop props "userDefinedLicense" in
  c <- absentFromStore knownLicense KnownLicenseEntity ;;
  if c then return_ true else
  c <- absentFromStore userDefinedLicense UserDefinedLicenseEntity ;;
  if c then return_ true else
  return_ false.

Definition featuredVideo (props : Props) : Async bool bool :=
  match prop props "video" with
  | Some video =>
      row <- db_get Video (idString video) ;;
      return_ (negb (isSome row))
  | None => return_ false
  end.

End IgnoreOperation.

(* ================================================================== *)
(** ** Helpers of ../decode, ../get-or-create and ./create *)

(** Modelled from the spec: decode.stringIfyEntityId is not under src/; it
    yields the entity id of the event in string form. *)
Definition stringIfyEntityId (event : SubstrateEvent) : string :=
  toString (param_entityId event).

(** Modelled from the spec: decode.getClassEntity is not under src/; it
    yields the [(classId, entityId)] payload of an EntityCreated event. *)
Definition getClassEntity (event : SubstrateEvent) : IClassEntity :=
  {| c_classId := param_classId event; c_entityId := param_entityId event |}.

(** Modelled from the spec: createBlockOrGetFromDatabase of ./create is not
    under src/; it yields the BlockRef of a block height, recording the
    block when the store does not have it yet. *)
Definition createBlockOrGetFromDatabase (blockNumber : Z) : Async Z Z :=
  fun w =>
    if existsb (Z.eqb blockNumber) (blocks (db w)) then (Return blockNumber, w)
    else
      (Return blockNumber,
       {| db := {| typedRows := typedRows (db w);
                   classEntities := classEntities (db w);
                   nextEntityIdRow := nextEntityIdRow (db w);
                   blocks := blocks (db w) ++ [blockNumber] |};
          trace := trace w |}).

(** Modelled from the spec: getOrCreate.nextEntityId is not under src/; it
    sets the global next-entity-id counter. *)
Definition getOrCreate_nextEntityId (nextEntityId : Z) : Async unit unit :=
  fun w =>
    (Return tt,
     {| db := {| typedRows := typedRows (db w);
                 classEntities := classEntities (db w);
                 nextEntityIdRow := Some nextEntityId;
                 blocks := blocks (db w) |};
        trace := trace w |}).

Definition db_save_ClassEntity {R : Type} (c : ClassEntity) : Async R unit :=
  log (DbSaveClassEntity (ce_id c)) ;;;
  fun w => (Normal tt, {| db := saveClassEntity (db w) c; trace := trace w |}).

(** [await db.remove<ClassEntity>(classEntity)].  The registry lookup below
    hands out a class together with the row it was read from, so the
    [None] case is never reached after a known class. *)
Definition db_remove_ClassEntity {R : Type} (c : option ClassEntity)
  : Async R unit :=
  match c with
  | Some c =>
      log (DbRemoveClassEntity (ce_id c)) ;;;
      fun w =>
        (Normal tt, {| db := removeClassEntity (db w) c; trace := trace w |})
  | None => throw "Cannot remove an undefined entity"
  end.

Section Index.
Context {ext : Collaborators}.

(** Modelled from the spec: the class registry lookup
    [resolveClass(entityId) -> classId/className | unknown].  The class of
    an entity is the class its ClassEntity row records; it is known when
    the registry has a name for it. *)
Definition resolveClass (d : DB) (id : string)
  : option IKnownClass * option ClassEntity :=
  let ce := lookupClassEntity d id in
  let knownClass :=
    match ce with
    | Some c =>
        match classNameOfId (ce_classId c) with
        | Some n => Some {| name := n; classId := ce_classId c |}
        | None => None
        end
    | None => None
    end in
  (knownClass, ce).

(** Modelled from the spec: getKnownClass of ../get-or-create is not under
    src/.  Given an entity id it returns the known class the entity belongs
    to, or unknown ([None]), next to the ClassEntity row of the entity. *)
Definition getKnownClass (where_ : IWhereCond)
  : Async (option IKnownClass * option ClassEntity)
          (option IKnownClass * option ClassEntity) :=
  fun w => (Return (resolveClass (db w) (where_id where_)), w).

Definition decode_setProperties {R : Type} (event : SubstrateEvent)
  (layout : PropertyNamesWithId) : Async R Props :=
  log (Decode layout) ;;; ret (setProperties event layout).

(** *** The handlers of ./create, ./update and ./remove *)

Definition create (c : ContentDirectoryKnownClasses) (arg : IDBBlockId)
  (extra : option (ClassEntityMap * Z)) (props : Props) : Async unit unit :=
  log (Handler Create c (arg_id arg)) ;;; createEntity c arg extra props.

Definition update (c : ContentDirectoryKnownClasses) (where_ : IWhereCond)
  (props : Props) (extra : option Z) : Async unit unit :=
  log (Handler Update c (where_id where_)) ;;; updateEntity c where_ props extra.

Definition remove (c : ContentDirectoryKnownClasses) (where_ : IWhereCond)
  : Async unit unit :=
  log (Handler Remove c (where_id where_)) ;;; removeEntity c where_.

Definition createCategory arg props := create CATEGORY arg None props.
Definition createKnownLicense arg props := create KNOWNLICENSE arg None props.
Definition createUserDefinedLicense arg props :=
  create USERDEFINEDLICENSE arg None props.
Definition createJoystreamMediaLocation arg props :=
  create JOYSTREAMMEDIALOCATION arg None props.
Definition createHttpMediaLocation arg props :=
  create HTTPMEDIALOCATION arg None props.
Definition createLanguage arg props := create LANGUAGE arg None props.
Definition createVideoMediaEncoding arg props :=
  create VIDEOMEDIAENCODING arg None props.
Definition createChannel arg (m : ClassEntityMap) props (n : Z) :=
  create CHANNEL arg (Some (m, n)) props.
Definition createVideoMedia arg (m : ClassEntityMap) props (n : Z) :=
  create VIDEOMEDIA arg (Some (m, n)) props.
Definition createVideo arg (m : ClassEntityMap) props (n : Z) :=
  create VIDEO arg (Some (m, n)) props.
Definition createFeaturedVideo arg (m : ClassEntityMap) props (n : Z) :=
  create FEATUREDVIDEOS arg (Some (m, n)) props.
Definition createMediaLocation arg (m : ClassEntityMap) props (n : Z) :=
  create MEDIALOCATION arg (Some (m, n)) props.
Definition createLicense arg (m : ClassEntityMap) props (n : Z) :=
  create LICENSE arg (Some (m, n)) props.

Definition updateCategoryEntityPropertyValues where_ props :=
  update CATEGORY where_ props None.
Definition updateKnownLicenseEntityPropertyValues where_ props :=
  update KNOWNLICENSE where_ props None.
Definition updateUserDefinedLicenseEntityPropertyValues where_ props :=
  update USERDEFINEDLICENSE where_ props None.
Definition updateJoystreamMediaLocationEntityPropertyValues where_ props :=
  update JOYSTREAMMEDIALOCATION where_ props None.
Definition updateHttpMediaLocationEntityPropertyValues where_ props :=
  update HTTPMEDIALOCATION where_ props None.
Definition updateLanguageEntityPropertyValues where_ props :=
  update LANGUAGE where_ props None.
Definition updateVideoMediaEncodingEntityPropertyValues where_ props :=
  update VIDEOMEDIAENCODING where_ props None.
Definition updateChannelEntityPropertyValues where_ props (n : Z) :=
  update CHANNEL where_ props (Some n).
Definition updateVideoMediaEntityPropertyValues where_ props (n : Z) :=
  update VIDEOMEDIA where_ props (Some n).
Definition updateVideoEntityPropertyValues where_ props (n : Z) :=
  update VIDEO where_ props (Some n).
Definition updateLicenseEntityPropertyValues where_ props (n : Z) :=
  update LICENSE where_ props (Some n).
Definition updateMediaLocationEntityPropertyValues where_ props (n : Z) :=
  update MEDIALOCATION where_ props (Some n).
Definition updateFeaturedVideoEntityPropertyValues where_ props (n : Z) :=
  update FEATUREDVIDEOS where_ props (Some n).

Definition removeChannel := remove CHANNEL.
Definition removeCategory := remove CATEGORY.
Definition removeKnownLicense := remove KNOWNLICENSE.
Definition removeUserDefinedLicense := remove USERDEFINEDLICENSE.
Definition removeJoystreamMediaLocation := remove JOYSTREAMMEDIALOCATION.
Definition removeHttpMediaLocation := remove HTTPMEDIALOCATION.
Definition removeVideoMedia := remove VIDEOMEDIA.
Definition removeVideo := remove VIDEO.
Definition removeLanguage := remove LANGUAGE.
Definition removeVideoMediaEncoding := remove VIDEOMEDIAENCODING.
Definition removeLicense := remove LICENSE.
Definition removeMediaLocation := remove MEDIALOCATION.
Definition removeFeaturedVideo := remove FEATUREDVIDEOS.

(** [event.extrinsic && event.extrinsic.method === 'transaction'] *)
Definition isTransaction (extrinsic : option SubstrateExtrinsic) : bool :=
  match extrinsic with
  | Some x => String.eqb (method x) "transaction"
  | None => false
  end.

Definition unknownClassName (n : string) : string :=
  String.append "Unknown class name: " n.

(** *** index.ts *)

Definition contentDirectory_EntitySchemaSupportAdded (event : SubstrateEvent)
  : Async unit unit :=
  if isTransaction (extrinsic event) then return_ tt else
  let block := blockNumber event in
  let entityId := stringIfyEntityId event in
  r <- await (getKnownClass {| where_id := entityId |}) ;;
  let '(knownClass, _) := r in
  match knownClass with
  | None => return_ tt
  | Some knownClass =>
  let arg := {| arg_block := block; arg_id := entityId |} in
  match switchOn (name knownClass) with
  | Some CHANNEL =>
      props <- decode_setProperties event channelPropertyNamesWithId ;;
      ignore <- spawn (channel props) ;;
      if truthy ignore then return_ tt else
      await (createChannel arg [] props 0)
  | Some CATEGORY =>
      props <- decode_setProperties event categoryPropertyNamesWithId ;;
      await (createCategory arg props)
  | Some KNOWNLICENSE =>
      props <- decode_setProperties event knownLicensePropertyNamesWIthId ;;
      await (createKnownLicense arg props)
  | Some USERDEFINEDLICENSE =>
      props <- decode_setProperties event
                 userDefinedLicensePropertyNamesWithId ;;
      await (createUserDefinedLicense arg props)
  | Some JOYSTREAMMEDIALOCATION =>
      props <- decode_setProperties event
                 joystreamMediaLocationPropertyNamesWithId ;;
      await (createJoystreamMediaLocation arg props)
  | Some HTTPMEDIALOCATION =>
      props <- decode_setProperties event
                 httpMediaLocationPropertyNamesWithId ;;
      await (createHttpMediaLocation arg props)
  | Some VIDEOMEDIA =>
      props <- decode_setProperties event videoPropertyNamesWithId ;;
      ignore <- spawn (videoMedia props) ;;
      if truthy ignore then return_ tt else
      await (createVideoMedia arg [] props 0)
  | Some VIDEO =>
      props <- decode_setProperties event videoPropertyNamesWithId ;;
      ignore <- spawn (video props) ;;
      if truthy ignore then return_ tt else
      await (createVideo arg [] props 0)
  | Some LANGUAGE =>
      props <- decode_setProperties event languagePropertyNamesWIthId ;;
      await (createLanguage arg props)
  | Some VIDEOMEDIAENCODING =>
      props <- decode_setProperties event
                 videoMediaEncodingPropertyNamesWithId ;;
      await (createVideoMediaEncoding arg props)
  | Some FEATUREDVIDEOS =>
      props <- decode_setProperties event featuredVideoPropertyNamesWithId ;;
      ignore <- spawn (featuredVideo props) ;;
      if truthy ignore then return_ tt else
      await (createFeaturedVideo arg [] props 0)
  | Some MEDIALOCATION =>
      props <- decode_setProperties event mediaLocationPropertyNamesWithId ;;
      ignore <- spawn (mediaLocation props) ;;
      if truthy ignore then return_ tt else
      await (createMediaLocation arg [] props 0)
  | Some LICENSE =>
      props <- decode_setProperties event licensePropertyNamesWithId ;;
      ignore <- spawn (license props) ;;
      if truthy ignore then return_ tt else
      await (createLicense arg [] props 0)
  | None => throw (unknownClassName (name knownClass))
  end
  end.

Definition contentDirectory_EntityRemoved (event : SubstrateEvent)
  : Async unit unit :=
  let entityId := stringIfyEntityId event in
  let where_ := {| where_id := entityId |} in
  r <- await (getKnownClass where_) ;;
  let '(knownClass, classEntity) := r in
  match knownClass with
  | None => return_ tt
  | Some knownClass =>
  (match switchOn (name knownClass) with
   | Some CHANNEL => await (removeChannel where_)
   | Some CATEGORY => await (removeCategory where_)
   | Some KNOWNLICENSE => await (removeKnownLicense where_)
   | Some USERDEFINEDLICENSE => await (removeUserDefinedLicense where_)
   | Some JOYSTREAMMEDIALOCATION => await (removeJoystreamMediaLocation where_)
   | Some HTTPMEDIALOCATION => await (removeHttpMediaLocation where_)
   | Some VIDEOMEDIA => await (removeVideoMedia where_)
   | Some VIDEO => await (removeVideo where_)
   | Some LANGUAGE => await (removeLanguage where_)
   | Some VIDEOMEDIAENCODING => await (removeVideoMediaEncoding where_)
   | Some LICENSE => await (removeLicense where_)
   | Some MEDIALOCATION => await (removeMediaLocation where_)
   | Some FEATUREDVIDEOS => await (removeFeaturedVideo where_)
   | None => throw (unknownClassName (name knownClass))
   end) ;;;
  db_remove_ClassEntity classEntity
  end.

Definition contentDirectory_EntityCreated (event : SubstrateEvent)
  : Async unit unit :=
  if isTransaction (extrinsic event) then return_ tt else
  let c := getClassEntity event in
  happenedIn <- await (createBlockOrGetFromDatabase (blockNumber event)) ;;
  let classEntity :=
    {| ce_classId := c_classId c;
       ce_id := toString (c_entityId c);
       ce_version := blockNumber event;
       ce_happenedIn := happenedIn |} in
  db_save_ClassEntity classEntity ;;;
  await (getOrCreate_nextEntityId (Number_add (c_entityId c) 1)).

(** [extrinsic.args.push(newPropertyValues)], seen through the event. *)
Definition pushArg (event : SubstrateEvent) (x : SubstrateExtrinsic) (a : Arg)
  : SubstrateEvent :=
  {| event_id := event_id event;
     blockNumber := blockNumber event;
     param_classId := param_classId event;
     param_entityId := param_entityId event;
     extrinsic := Some {| method := method x; args := args x ++ [a] |} |}.

Definition contentDirectory_EntityPropertyValuesUpdated
  (event : SubstrateEvent) : Async unit unit :=
  let extrinsic := extrinsic event in
  if isTransaction extrinsic then return_ tt else
  match extrinsic with
  | None =>
      throw (String.append "Extrinsic data not found for event: "
               (event_id event))
  | Some extrinsic =>
  let newPropertyValues := nth 2 (args extrinsic) ArgUndefined in
  let entityId := stringIfyEntityId event in
  let where_ := {| where_id := entityId |} in
  r <- await (getKnownClass where_) ;;
  let '(knownClass, _) := r in
  match knownClass with
  | None => return_ tt
  | Some knownClass =>
  let event := pushArg event extrinsic newPropertyValues in
  match switchOn (name knownClass) with
  | Some CHANNEL =>
      props <- decode_setProperties event channelPropertyNamesWithId ;;
      ignore <- spawn (channel props) ;;
      if truthy ignore then return_ tt else
      (_ <- spawn (updateChannelEntityPropertyValues where_ props 0) ;;
       ret tt)
  | Some CATEGORY =>
      props <- decode_setProperties event categoryPropertyNamesWithId ;;
      await (updateCategoryEntityPropertyValues where_ props)
  | Some KNOWNLICENSE =>
      props <- decode_setProperties event knownLicensePropertyNamesWIthId ;;
      await (updateKnownLicenseEntityPropertyValues where_ props)
  | Some USERDEFINEDLICENSE =>
      props <- decode_setProperties event
                 userDefinedLicensePropertyNamesWithId ;;
      await (updateUserDefinedLicenseEntityPropertyValues where_ props)
  | Some JOYSTREAMMEDIALOCATION =>
      props <- decode_setProperties event
                 joystreamMediaLocationPropertyNamesWithId ;;
      await (updateJoystreamMediaLocationEntityPropertyValues where_ props)
  | Some HTTPMEDIALOCATION =>
      props <- decode_setProperties event
                 httpMediaLocationPropertyNamesWithId ;;
      await (updateHttpMediaLocationEntityPropertyValues where_ props)
  | Some VIDEOMEDIA =>
      props <- decode_setProperties event videoPropertyNamesWithId ;;
      ignore <- spawn (videoMedia props) ;;
      if truthy ignore then return_ tt else
      await (updateVideoMediaEntityPropertyValues where_ props 0)
  | Some VIDEO =>
      props <- decode_setProperties event videoPropertyNamesWithId ;;
      ignore <- spawn (video props) ;;
      if truthy ignore then return_ tt else
      await (updateVideoEntityPropertyValues where_ props 0)
  | Some LANGUAGE =>
      props <- decode_setProperties event languagePropertyNamesWIthId ;;
      await (updateLanguageEntityPropertyValues where_ props)
  | Some VIDEOMEDIAENCODING =>
      props <- decode_setProperties event
                 videoMediaEncodingPropertyNamesWithId ;;
      await (updateVideoMediaEncodingEntityPropertyValues where_ props)
  | Some LICENSE =>
      props <- decode_setProperties event
                 videoMediaEncodingPropertyNamesWithId ;;
      ignore <- spawn (license props) ;;
      if truthy ignore then return_ tt else
      await (updateLicenseEntityPropertyValues where_ props 0)
  | Some MEDIALOCATION =>
      props <- decode_setProperties event
                 videoMediaEncodingPropertyNamesWithId ;;
      ignore <- spawn (mediaLocation props) ;;
      if truthy ignore then return_ tt else
      await (updateMediaLocationEntityPropertyValues where_ props 0)
  | Some FEATUREDVIDEOS =>
      props <- decode_setProperties event featuredVideoPropertyNamesWithId ;;
      ignore <- spawn (featuredVideo props) ;;
      if truthy ignore then return_ tt else
      await (updateFeaturedVideoEntityPropertyValues where_ props 0)
  | None => throw (unknownClassName (name knownClass))
  end
  end
  end.

End Index.

(* ================================================================== *)
(** ** The validator's scan, stated over the references of a batch *)

(** A reference check of the validator: the reference, the store model
    and where-id of the query made for an existing target, and the class
    name under which a batch-local target is looked up. *)
Record ReferenceCheck : Type :=
  { rc_ref : IReference;
    rc_model : Model;
    rc_where : WhereId;
    rc_class : string }.

Definition ReferenceField : Type :=
  (string * Model * (IReference -> WhereId) * string)%type.

(** The Reference-valued properties [transaction] reads for a class, in the
    order it reads them. *)
Definition referenceFields (c : ContentDirectoryKnownClasses)
  : list ReferenceField :=
  match c with
  | CHANNEL => [("language", Language, idString, "Language")]
  | VIDEOMEDIA =>
      [("encoding", VideoMediaEncoding, idString, "VideoMediaEncoding");
       ("location", MediaLocationEntity, idString, "MediaLocation")]
  | VIDEO =>
      [("category", Category, idString, "Category");
       ("channel", Channel, idString, "Channel");
       ("language", Language, idString, "Language");
       ("license", LicenseEntity, idString, "License");
       ("media", VideoMedia, idString, "VideoMedia")]
  | LICENSE =>
      [("knownLicense", KnownLicenseEntity, idString, "KnownLicense");
       ("userDefinedLicense", UserDefinedLicenseEntity, idString,
        "UserDefinedLicense")]
  | MEDIALOCATION =>
      [("joystreamMediaLocation", JoystreamMediaLocationEntity, idString,
        "JoystreamMediaLocation");
       ("httpMediaLocation", HttpMediaLocationEntity, idString,
        "HttpMediaLocation")]
  | FEATUREDVIDEOS => [("video", Video, idToStringMethod, "Video")]
  | _ => []
  end.

(** The layout of a class: the constant of content-dir-consts named after
    it. *)
Definition layoutOf (c : ContentDirectoryKnownClasses) : PropertyNamesWithId :=
  match c with
  | CHANNEL => channelPropertyNamesWithId
  | CATEGORY => categoryPropertyNamesWithId
  | KNOWNLICENSE => knownLicensePropertyNamesWIthId
  | USERDEFINEDLICENSE => userDefinedLicensePropertyNamesWithId
  | JOYSTREAMMEDIALOCATION => joystreamMediaLocationPropertyNamesWithId
  | HTTPMEDIALOCATION => httpMediaLocationPropertyNamesWithId
  | VIDEOMEDIA => videoMediaPropertyNamesWithId
  | VIDEO => videoPropertyNamesWithId
  | LANGUAGE => languagePropertyNamesWIthId
  | VIDEOMEDIAENCODING => videoMediaEncodingPropertyNamesWithId
  | LICENSE => licensePropertyNamesWithId
  | MEDIALOCATION => mediaLocationPropertyNamesWithId
  | FEATUREDVIDEOS => featuredVideoPropertyNamesWithId
  end.

Definition presentReferences (props : Props) (fields : list ReferenceField)
  : list ReferenceCheck :=
  flat_map
    (fun '(f, M, whereId, C) =>
       match prop props f with
       | Some r => [{| rc_ref := r; rc_model := M; rc_where := whereId r;
                       rc_class := C |}]
       | None => []
       end)
    fields.

Section BatchReferences.
Context {ext : Collaborators}.

Definition entityReferences (className : string) (entity : IEntity)
  : list ReferenceCheck :=
  match switchOn className with
  | Some c =>
      presentReferences
        (setEntityPropertyValues (properties entity) (layoutOf c))
        (referenceFields c)
  | None => []
  end.

(** Every reference of the batch, in the order of the scan: class by class
    in the order the classes first occur, entity by entity, property by
    property. *)
Definition batchReferences (classEntityMap : ClassEntityMap)
  : list ReferenceCheck :=
  flat_map (fun '(className, entities) =>
              flat_map (entityReferences className) entities)
    classEntityMap.

(** The verdict of the check [transaction] makes on one reference, with
    the where-clause as the code builds it. *)
Definition unresolved (d : DB) (classEntityMap : ClassEntityMap)
  (rc : ReferenceCheck) : bool :=
  if existing (rc_ref rc)
  then negb (isSome (lookup d (rc_model rc) (rc_where rc)))
  else getEntity classEntityMap (rc_class rc) (entityId (rc_ref rc)).

End BatchReferences.

(** The references looked at by a fail-fast scan: all of them up to and
    including the first one that fails. *)
Fixpoint scanned {A : Type} (fails : A -> bool) (l : list A) : list A :=
  match l with
  | [] => []
  | x :: rest => x :: (if fails x then [] else scanned fails rest)
  end.

(** The store queries a list of reference checks gives rise to. *)
Definition queriesOf (l : list ReferenceCheck) : list Call :=
  flat_map (fun rc => if existing (rc_ref rc)
                      then [DbGet (rc_model rc) (rc_where rc)] else [])
    l.

Definition isDbGet (c : Call) : bool :=
  match c with DbGet _ _ => true | _ => false end.

Definition storeQueries (t : list Call) : list Call := filter isDbGet t.

Section ScanSemantics.
Context {ext : Collaborators}.

(** What a piece of the scan does when it is entered with
    [ignoreOperations = false]: it looks at the references [l] in order,
    returns [true] at the first failing one and falls through with [false]
    when there is none; it reads the store and never writes it. *)
Definition Scans (classEntityMap : ClassEntityMap)
  (c : bool -> Async bool bool) (l : list ReferenceCheck) : Prop :=
  forall w, exists w',
    c false w
    = ((if existsb (unresolved (db w) classEntityMap) l
        then Return true else Normal false), w')
    /\ db w' = db w
    /\ storeQueries (trace w')
       = storeQueries (trace w)
         ++ queriesOf (scanned (unresolved (db w) classEntityMap) l).

(** The checks of one arm, one after the other. *)
Fixpoint resolveAll (m : ClassEntityMap) (props : Props)
  (fields : list ReferenceField) (ignoreOperations : bool)
  : Async bool bool :=
  match fields with
  | [] => ret ignoreOperations
  | (f, M, whereId, C) :: rest =>
      match rest with
      | [] => resolveReference m (prop props f) M whereId C ignoreOperations
      | _ :: _ =>
          bind (resolveReference m (prop props f) M whereId C ignoreOperations)
            (resolveAll m props rest)
      end
  end.

End ScanSemantics.

(** The single-entity check of a class, for the classes that carry
    references. *)
Definition shouldIgnoreOf (c : ContentDirectoryKnownClasses)
  : option (Props -> Async bool bool) :=
  match c with
  | CHANNEL => Some channel
  | VIDEOMEDIA => Some videoMedia
  | VIDEO => Some video
  | MEDIALOCATION => Some mediaLocation
  | LICENSE => Some license
  | FEATUREDVIDEOS => Some featuredVideo
  | _ => None
  end.


(* ================================================================== *)
(** ** A sample registry and the lifecycle handlers of the spec *)

Definition modelOf (c : ContentDirectoryKnownClasses) : Model :=
  match c with
  | CHANNEL => Channel
  | CATEGORY => Category
  | KNOWNLICENSE => KnownLicenseEntity
  | USERDEFINEDLICENSE => UserDefinedLicenseEntity
  | JOYSTREAMMEDIALOCATION => JoystreamMediaLocationEntity
  | HTTPMEDIALOCATION => HttpMediaLocationEntity
  | VIDEOMEDIA => VideoMedia
  | VIDEO => Video
  | LANGUAGE => Language
  | VIDEOMEDIAENCODING => VideoMediaEncoding
  | LICENSE => LicenseEntity
  | MEDIALOCATION => MediaLocationEntity
  | FEATUREDVIDEOS => FeaturedVideo
  end.

Definition withTypedRows (d : DB) (rows : list Row) : DB :=
  {| typedRows := rows;
     classEntities := classEntities d;
     nextEntityIdRow := nextEntityIdRow d;
     blocks := blocks d |}.

(** Modelled from the spec: the create handlers of ./create are not under
    src/.  [create(blockContext, decodedProps)] materializes a new typed
    row. *)
Definition materialize (c : ContentDirectoryKnownClasses) (arg : IDBBlockId)
  : Async unit unit :=
  fun w =>
    (Normal tt,
     {| db := withTypedRows (db w)
                (typedRows (db w)
                 ++ [{| row_model := modelOf c; row_id := arg_id arg |}]);
        trace := trace w |}).

(** Modelled from the spec: the update handlers of ./update are not under
    src/.  [update(whereId, decodedProps)] rewrites scalar columns of the
    row it finds and is a no-op when there is none; neither changes the set
    of rows. *)
Definition amend (c : ContentDirectoryKnownClasses) (where_ : IWhereCond)
  : Async unit unit :=
  ret tt.

(** Modelled from the spec: the remove handlers of ./remove are not under
    src/.  [remove(whereId)] deletes the typed row. *)
Definition delete (c : ContentDirectoryKnownClasses) (where_ : IWhereCond)
  : Async unit unit :=
  fun w =>
    (Normal tt,
     {| db := withTypedRows (db w)
                (filter (fun r => negb (matches (modelOf c)
                                          (IdString (where_id where_)) r))
                   (typedRows (db w)));
        trace := trace w |}).

(** Modelled from the spec: the decoder of ../decode is not under src/.  It
    maps a fixed-order list of raw values to a named bag using the names of
    a layout; relation-typed values decode into References. *)
Definition decodeProperties (names : list string) (raw : list IProperty)
  : Props :=
  flat_map (fun '(n, v) =>
              match v with
              | RawReference r => [(n, r)]
              | RawScalar _ => []
              end)
    (combine names raw).

(** Sample layouts: for each constant, the Reference-valued property names
    of the interface it decodes to, as ignoreOperation.ts destructures
    them. *)
Definition sampleLayout (layout : PropertyNamesWithId) : list string :=
  match layout with
  | channelPropertyNamesWithId => ["language"]
  | videoMediaPropertyNamesWithId => ["encoding"; "location"]
  | videoPropertyNamesWithId =>
      ["category"; "channel"; "language"; "license"; "media"]
  | licensePropertyNamesWithId => ["knownLicense"; "userDefinedLicense"]
  | mediaLocationPropertyNamesWithId =>
      ["joystreamMediaLocation"; "httpMediaLocation"]
  | featuredVideoPropertyNamesWithId => ["video"]
  | _ => []
  end.

(** A sample registry: class ids 1 to 13 are the known classes in the order
    of the enumeration, class id 99 carries a name outside of it. *)
Definition sampleClassNameOfId (classId : Z) : option string :=
  if Z.eqb classId 99 then Some "Playlist"
  else if Z.leb 1 classId && Z.leb classId 13
       then option_map className_of
              (nth_error allKnownClasses (Z.to_nat (classId - 1)))
       else None.

(** In the sample, a create-entity operation is the class id it creates
    with, and an entity of a batch is of the class of the operation at its
    [indexOf]. *)
Definition sampleGetClassName (_ : DB) (entity : IEntity) (ops : list Z)
  : option string :=
  match indexOf entity with
  | Some i =>
      if Z.ltb i 0 then None
      else match nth_error ops (Z.to_nat i) with
           | Some classId => sampleClassNameOfId classId
           | None => None
           end
  | None => None
  end.

(** The property values of an event are looked for at index 3 of the
    extrinsic arguments, as the comment in
    contentDirectory_EntityPropertyValuesUpdated says. *)
Definition sampleSetProperties (event : SubstrateEvent)
  (layout : PropertyNamesWithId) : Props :=
  match extrinsic event with
  | Some x =>
      match nth 3 (args x) ArgUndefined with
      | ArgValues vs => decodeProperties (sampleLayout layout) vs
      | _ => []
      end
  | None => []
  end.

#[local] Instance sample : Collaborators :=
  {| ICreateEntityOperation := Z;
     getClassName := sampleGetClassName;
     setEntityPropertyValues :=
       fun raw layout => decodeProperties (sampleLayout layout) raw;
     setProperties := sampleSetProperties;
     classNameOfId := sampleClassNameOfId;
     createEntity := fun c arg _ _ => materialize c arg;
     updateEntity := fun c where_ _ _ => amend c where_;
     removeEntity := delete |}.

Section Batch.
Context {ext : Collaborators}.

(** Modelled from the spec: the code that applies a batch is not under
    src/.  The validator scans the whole batch before any write; an ignored
    batch writes nothing; otherwise the entities of the batch are
    materialized one after the other, each under its batch id. *)
Definition applyBatch (block : Z)
  (createEntityOperations : list ICreateEntityOperation)
  (entities : list IEntity) : Async unit unit :=
  fun w =>
    let d := db w in
    (ignore <- await (transaction createEntityOperations entities) ;;
     if ignore then return_ tt else
     forOf entities
       (fun entity _ =>
          match getClassName d entity createEntityOperations,
                indexOf entity with
          | Some className, Some i =>
              match switchOn className with
              | Some c =>
                  await (materialize c
                           {| arg_block := block; arg_id := toString i |})
              | None => ret tt
              end
          | _, _ => ret tt
          end)
       tt) w.

(** The typed rows a validated batch gives rise to. *)
Definition batchRows (d : DB)
  (createEntityOperations : list ICreateEntityOperation)
  (entities : list IEntity) : list Row :=
  flat_map
    (fun entity =>
       match getClassName d entity createEntityOperations,
             indexOf entity with
       | Some className, Some i =>
           match switchOn className with
           | Some c => [{| row_model := modelOf c; row_id := toString i |}]
           | None => []
           end
       | _, _ => []
       end)
    entities.

End Batch.

Definition emptyDB : DB :=
  {| typedRows := []; classEntities := []; nextEntityIdRow := None;
     blocks := [] |}.

Definition start (d : DB) : World := {| db := d; trace := [] |}.

(** ** Sample stores, batches and events *)

(** A store whose only row is the Video "5". *)
Definition storeWithVideo5 : DB :=
  withTypedRows emptyDB [{| row_model := Video; row_id := "5" |}].

(** A FeaturedVideo entity whose [video] points at the persisted Video 5. *)
Definition featuredVideoOfVideo5 : IEntity :=
  {| indexOf := Some 0;
     properties := [RawReference {| entityId := 5; existing := true |}] |}.

(** A Video entity, first of its batch, whose [channel] points at the
    entity created second in the same batch. *)
Definition videoOfNewChannel : IEntity :=
  {| indexOf := Some 0;
     properties := [RawScalar "Film";
                    RawReference {| entityId := 1; existing := false |}] |}.

Definition newChannel : IEntity := {| indexOf := Some 1; properties := [] |}.

(** Events for entity 10.  The property values sit at index 3 of the
    extrinsic arguments for a schema-attach event and at index 2 for an
    update. *)
Definition schemaEvent (values : list IProperty) : SubstrateEvent :=
  {| event_id := "0000000100-000001";
     blockNumber := 100;
     param_classId := 0;
     param_entityId := 10;
     extrinsic :=
       Some {| method := "addSchemaSupportToEntity";
               args := [ArgScalar 0; ArgScalar 10; ArgScalar 0;
                        ArgValues values] |} |}.

Definition updateEvent (values : list IProperty) : SubstrateEvent :=
  {| event_id := "0000000101-000001";
     blockNumber := 101;
     param_classId := 0;
     param_entityId := 10;
     extrinsic :=
       Some {| method := "updateEntityPropertyValues";
               args := [ArgScalar 0; ArgScalar 10; ArgValues values] |} |}.

Definition removalEvent (method_ : string) : SubstrateEvent :=
  {| event_id := "0000000102-000001";
     blockNumber := 102;
     param_classId := 0;
     param_entityId := 10;
     extrinsic := Some {| method := method_; args := [ArgScalar 10] |} |}.

Definition creationEvent (classId_ : Z) : SubstrateEvent :=
  {| event_id := "0000000099-000001";
     blockNumber := 99;
     param_classId := classId_;
     param_entityId := 10;
     extrinsic :=
       Some {| method := "createEntity"; args := [ArgScalar classId_] |} |}.

(** A store in which entity 10 has its ClassEntity row, of the given class
    id, next to the given typed rows. *)
Definition storeWithEntity10 (classId_ : Z) (rows : list Row) : DB :=
  {| typedRows := rows;
     classEntities :=
       [{| ce_id := "10"; ce_classId := classId_; ce_version := 99;
           ce_happenedIn := 99 |}];
     nextEntityIdRow := Some 11;
     blocks := [99] |}.

Definition pointer (id : Z) : IProperty :=
  RawReference {| entityId := id; existing := true |}.

(** ** Notions used to state the behaviour of the two files *)

Section ClassNames.
Context {ext : Collaborators}.

(** [getClassName(db, entity, createEntityOperations) === className] *)
Definition hasClassName (d : DB) (ops : list ICreateEntityOperation)
  (className : string) (entity : IEntity) : bool :=
  match getClassName d entity ops with
  | Some n => String.eqb n className
  | None => false
  end.

End ClassNames.

Section UnresolvedAsSpecified.
Context {ext : Collaborators}.

(** Following the spec's words (4.3, step 2): a reference of a batch to an
    entity of a target class is unresolved when, for [existing = true], the
    store has no row of the target class with the referenced id and, for
    [existing = false], the referenced id does not appear among the
    entities of the target class that the batch introduces. *)
Definition unresolvedAsSpecified (d : DB)
  (ops : list ICreateEntityOperation) (entities : list IEntity)
  (target : Model) (targetClass : string) (r : IReference) : bool :=
  if existing r
  then negb (isSome (lookup d target (IdString (toString (entityId r)))))
  else negb (existsb
               (fun e => hasClassName d ops targetClass e
                         && indexOf_is (entityId r) e)
               entities).

End UnresolvedAsSpecified.

(** The store has no row of the model of the check under the referenced id
    in string form. *)
Definition storeMisses (d : DB) (rc : ReferenceCheck) : bool :=
  negb (isSome (lookup d (rc_model rc) (idString (rc_ref rc)))).

(** One store query per reference, for the referenced id in string form. *)
Definition lookupsOf (l : list ReferenceCheck) : list Call :=
  map (fun rc => DbGet (rc_model rc) (idString (rc_ref rc))) l.


(** The same bag with the [existing] flag of every reference set to [b]. *)
Definition withExisting (b : bool) (props : Props) : Props :=
  map (fun '(k, r) => (k, {| entityId := entityId r; existing := b |})) props.

(** A remove handler that rejects when the row it is to delete is not in
    the store, and deletes it otherwise. *)
Definition deleteOrReject (c : ContentDirectoryKnownClasses)
  (where_ : IWhereCond) : Async unit unit :=
  fun w =>
    if isSome (lookup (db w) (modelOf c) (IdString (where_id where_)))
    then delete c where_ w
    else (Throw (String.append (className_of c) " not found"), w).

(** The sample collaborators with the rejecting remove handler. *)
Definition sampleRejecting : Collaborators :=
  {| ICreateEntityOperation := Z;
     getClassName := sampleGetClassName;
     setEntityPropertyValues :=
       fun raw layout => decodeProperties (sampleLayout layout) raw;
     setProperties := sampleSetProperties;
     classNameOfId := sampleClassNameOfId;
     createEntity := fun c arg _ _ => materialize c arg;
     updateEntity := fun c where_ _ _ => amend c where_;
     removeEntity := deleteOrReject |}.

(** An entity of a batch whose class name cannot be resolved. *)
Definition strayEntity : IEntity :=
  {| indexOf := None; properties := [pointer 77] |}.

(** A store whose only row is the Language "3", and the store that holds
    the Video "5" as well. *)
Definition storeWithLanguage3 : DB :=
  withTypedRows emptyDB [{| row_model := Language; row_id := "3" |}].

Definition storeWithLanguage3AndVideo5 : DB :=
  withTypedRows emptyDB
    [{| row_model := Language; row_id := "3" |};
     {| row_model := Video; row_id := "5" |}].

(** A Channel entity whose [language] points at the persisted Language 3. *)
Definition channelOfLanguage3 : IEntity :=
  {| indexOf := Some 0; properties := [pointer 3] |}.

(** A store in which entity 7, of class Category, has its ClassEntity row
    and entity 10 has none yet. *)
Definition classEntityOf7 : ClassEntity :=
  {| ce_id := "7"; ce_classId := 2; ce_version := 90; ce_happenedIn := 90 |}.

Definition storeWithEntity7 : DB :=
  {| typedRows := [];
     classEntities := [classEntityOf7];
     nextEntityIdRow := Some 8;
     blocks := [90] |}.

(** A property-update event for entity 10 that carries no extrinsic. *)
Definition updateEventWithoutExtrinsic : SubstrateEvent :=
  {| event_id := "0000000103-000001";
     blockNumber := 103;
     param_classId := 0;
     param_entityId := 10;
     extrinsic := None |}.

(* ================================================================== *)
(** * Properties *)

(** ** Lists, the store and the trace *)

Lemma existsb_false_scanned {A : Type} (fails : A -> bool) (l : list A) :
  existsb fails l = false -> scanned fails l = l.
Proof.
  induction l as [|x l IH]; simpl; [reflexivity|].
  intros H. apply orb_false_iff in H as [Hx Hl].
  rewrite Hx. f_equal. auto.
Qed.

Lemma scanned_app {A : Type} (fails : A -> bool) (l1 l2 : list A) :
  scanned fails (l1 ++ l2)
  = if existsb fails l1 then scanned fails l1
    else l1 ++ scanned fails l2.
Proof.
  induction l1 as [|x l1 IH]; simpl; [reflexivity|].
  destruct (fails x); simpl; [reflexivity|].
  rewrite IH. destruct (existsb fails l1); reflexivity.
Qed.

Lemma scanned_prefix {A : Type} (fails : A -> bool) (l : list A) :
  exists rest, l = scanned fails l ++ rest.
Proof.
  induction l as [|x l [rest IH]]; simpl.
  - exists []. reflexivity.
  - destruct (fails x).
    + exists l. reflexivity.
    + exists rest. simpl. f_equal. exact IH.
Qed.

Lemma scanned_last_fails {A : Type} (fails : A -> bool) (l : list A) :
  existsb fails l = true ->
  exists before x, scanned fails l = before ++ [x]
                   /\ fails x = true /\ existsb fails before = false.
Proof.
  induction l as [|x l IH]; simpl; [discriminate|].
  destruct (fails x) eqn:Hx; simpl.
  - intros _. exists [], x. auto.
  - intros H. destruct (IH H) as (before & y & E & Hy & Hb).
    exists (x :: before), y. simpl. rewrite E, Hx, Hb. auto.
Qed.

Lemma storeQueries_app (t1 t2 : list Call) :
  storeQueries (t1 ++ t2) = storeQueries t1 ++ storeQueries t2.
Proof. apply filter_app. Qed.

Lemma queriesOf_app (l1 l2 : list ReferenceCheck) :
  queriesOf (l1 ++ l2) = queriesOf l1 ++ queriesOf l2.
Proof. apply flat_map_app. Qed.

Lemma presentReferences_app (props : Props) (f1 f2 : list ReferenceField) :
  presentReferences props (f1 ++ f2)
  = presentReferences props f1 ++ presentReferences props f2.
Proof. apply flat_map_app. Qed.

(** ** The scan of [transaction] *)

Section Validator.
Context {ext : Collaborators}.

Lemma Scans_ret (m : ClassEntityMap) : Scans m (fun acc => ret acc) [].
Proof.
  intros w. exists w. simpl. rewrite app_nil_r. auto.
Qed.

Lemma Scans_seq (m : ClassEntityMap) (c1 c2 : bool -> Async bool bool)
  (l1 l2 : list ReferenceCheck) :
  Scans m c1 l1 -> Scans m c2 l2 ->
  Scans m (fun acc => bind (c1 acc) c2) (l1 ++ l2).
Proof.
  intros H1 H2 w.
  destruct (H1 w) as (w1 & E1 & D1 & T1).
  unfold bind. rewrite E1, existsb_app, scanned_app.
  destruct (existsb (unresolved (db w) m) l1) eqn:Ex; simpl.
  - exists w1. auto.
  - destruct (H2 w1) as (w2 & E2 & D2 & T2).
    rewrite D1 in E2, D2, T2.
    exists w2. rewrite E2. split; [reflexivity|]. split; [exact D2|].
    rewrite T2, T1, queriesOf_app, (existsb_false_scanned _ _ Ex).
    now rewrite app_assoc.
Qed.

Lemma Scans_decode (m : ClassEntityMap) (raw : list IProperty)
  (layout : PropertyNamesWithId) (c : Props -> bool -> Async bool bool)
  (l : list ReferenceCheck) :
  Scans m (c (setEntityPropertyValues raw layout)) l ->
  Scans m (fun acc =>
             bind (decode_setEntityPropertyValues raw layout)
               (fun props => c props acc)) l.
Proof.
  intros H w.
  set (w0 := {| db := db w; trace := trace w ++ [Decode layout] |}).
  destruct (H w0) as (w1 & E & D & T).
  exists w1. unfold decode_setEntityPropertyValues, bind, log, ret.
  fold w0. rewrite E. split; [reflexivity|]. split; [exact D|].
  rewrite T. unfold w0. simpl. rewrite storeQueries_app. simpl.
  now rewrite app_nil_r.
Qed.

Lemma Scans_resolveReference (m : ClassEntityMap) (ref : option IReference)
  (M : Model) (whereId : IReference -> WhereId) (C : string) :
  Scans m (resolveReference m ref M whereId C)
    (match ref with
     | Some r => [{| rc_ref := r; rc_model := M; rc_where := whereId r;
                     rc_class := C |}]
     | None => []
     end).
Proof.
  destruct ref as [r|]; [|apply Scans_ret].
  intros w. unfold resolveReference, unresolved, queriesOf. simpl.
  destruct (existing r) eqn:Ex.
  - unfold bind, db_get, log, ret, return_. simpl.
    exists {| db := db w; trace := trace w ++ [DbGet M (whereId r)] |}.
    simpl. rewrite orb_false_r, storeQueries_app. simpl.
    destruct (lookup (db w) M (whereId r)); simpl; auto.
  - unfold bind, ret, return_. exists w. rewrite orb_false_r.
    destruct (getEntity m C (entityId r)); simpl; rewrite app_nil_r; auto.
Qed.

Lemma Scans_forOf {A : Type} (m : ClassEntityMap) (xs : list A)
  (body : A -> bool -> Async bool bool) (refs : A -> list ReferenceCheck) :
  (forall x, Scans m (body x) (refs x)) ->
  Scans m (forOf xs body) (flat_map refs xs).
Proof.
  intros H. induction xs as [|x xs IH]; simpl.
  - apply Scans_ret.
  - apply (Scans_seq (H x) IH).
Qed.

Lemma Scans_resolveAll (m : ClassEntityMap) (props : Props)
  (fields : list ReferenceField) :
  Scans m (resolveAll m props fields) (presentReferences props fields).
Proof.
  induction fields as [|[[[f M] whereId] C] rest IH].
  - apply Scans_ret.
  - change (presentReferences props ((f, M, whereId, C) :: rest))
      with ((match prop props f with
             | Some r => [{| rc_ref := r; rc_model := M;
                             rc_where := whereId r; rc_class := C |}]
             | None => []
             end) ++ presentReferences props rest).
    destruct rest as [|g rest'].
    + simpl. rewrite app_nil_r. apply Scans_resolveReference.
    + apply (Scans_seq (Scans_resolveReference m (prop props f) M whereId C)
               IH).
Qed.

Lemma scanEntity_arms (m : ClassEntityMap) (className : string)
  (entity : IEntity) (ignoreOperations : bool) :
  scanEntity m className entity ignoreOperations
  = match switchOn className with
    | Some c =>
        match referenceFields c with
        | [] => ret ignoreOperations
        | fields =>
            bind (decode_setEntityPropertyValues (properties entity)
                    (layoutOf c))
              (fun props => resolveAll m props fields ignoreOperations)
        end
    | None => ret ignoreOperations
    end.
Proof.
  unfold scanEntity. destruct (switchOn className) as [[]|]; reflexivity.
Qed.

Lemma Scans_scanEntity (m : ClassEntityMap) (className : string)
  (entity : IEntity) :
  Scans m (scanEntity m className entity) (entityReferences className entity).
Proof.
  assert (E : forall acc,
             scanEntity m className entity acc
             = match switchOn className with
               | Some c =>
                   match referenceFields c with
                   | [] => ret acc
                   | fields =>
                       bind (decode_setEntityPropertyValues
                               (properties entity) (layoutOf c))
                         (fun props => resolveAll m props fields acc)
                   end
               | None => ret acc
               end) by apply scanEntity_arms.
  intros w. rewrite E. unfold entityReferences.
  destruct (switchOn className) as [c|]; [|apply Scans_ret].
  destruct (referenceFields c) as [|f fields] eqn:F.
  - apply Scans_ret.
  - apply (@Scans_decode m (properties entity) (layoutOf c)
             (fun props => resolveAll m props (f :: fields))).
    apply Scans_resolveAll.
Qed.

Lemma Scans_batch (m classEntityMap : ClassEntityMap) :
  Scans m
    (forOf classEntityMap
       (fun '(className, entities) ignoreOperations =>
          forOf entities (scanEntity m className) ignoreOperations))
    (batchReferences classEntityMap).
Proof.
  unfold batchReferences.
  apply (@Scans_forOf (string * list IEntity) m classEntityMap
           (fun '(className, entities) ignoreOperations =>
              forOf entities (scanEntity m className) ignoreOperations)
           (fun '(className, entities) =>
              flat_map (entityReferences className) entities)).
  intros [className entities].
  apply Scans_forOf. intros e. apply Scans_scanEntity.
Qed.

(** [transaction], run to its end from [w]. *)
Lemma transaction_scan
  (createEntityOperations : list ICreateEntityOperation)
  (entities : list IEntity) (w : World) :
  let classEntityMap :=
    buildClassEntityMap (db w) createEntityOperations entities in
  let refs := batchReferences classEntityMap in
  exists w',
    await (R' := unit) (transaction createEntityOperations entities) w
    = (Normal (existsb (unresolved (db w) classEntityMap) refs), w')
    /\ db w' = db w
    /\ storeQueries (trace w')
       = storeQueries (trace w)
         ++ queriesOf (scanned (unresolved (db w) classEntityMap) refs).
Proof.
  intros m refs.
  destruct (Scans_batch m m w) as (w' & E & D & T).
  exists w'. unfold await, transaction. fold m. unfold bind.
  rewrite E. fold refs.
  destruct (existsb (unresolved (db w) m) refs); auto.
Qed.

End Validator.

(** ** The validator *)

(** Outside of the FeaturedVideo arm, the store query of a reference check
    asks for the referenced id in string form. *)
Lemma referenceFields_query_by_id (c : ContentDirectoryKnownClasses)
  (f : string) (M : Model) (whereId : IReference -> WhereId) (C : string)
  (r : IReference) :
  In (f, M, whereId, C) (referenceFields c) ->
  c <> FEATUREDVIDEOS ->
  whereId r = IdString (toString (entityId r)).
Proof.
  intros HIn N.
  destruct c; simpl in HIn;
    repeat match goal with
           | H : _ \/ _ |- _ => destruct H as [H|H]
           | H : (_, _, _, _) = (_, _, _, _) |- _ => inversion H; clear H
           | H : False |- _ => destruct H
           end;
    try reflexivity.
  now elim N.
Qed.

(** C1 (code as written, at the failing input).  The batch holds one
    FeaturedVideo entity whose [video] reference has [existing = true] and
    points at Video 5, a row the store holds.  [transaction] does not query
    the store for the referenced id: the where-clause it builds carries the
    method [toString] itself, the query finds nothing and the batch is
    ignored.  The single-entity check [featuredVideo] on the same property
    bag queries for the id "5" and finds the row. *)
Theorem C1_featured_video_query_misses_referenced_id :
  lookup storeWithVideo5 Video (IdString (toString 5))
  = Some {| row_model := Video; row_id := "5" |}
  /\ await (R' := unit) (transaction (ext := sample) [13] [featuredVideoOfVideo5])
       (start storeWithVideo5)
     = (Normal true,
        {| db := storeWithVideo5;
           trace := [Decode featuredVideoPropertyNamesWithId;
                     DbGet Video IdFunction] |})
  /\ await (R' := unit)
       (featuredVideo
          (setEntityPropertyValues (properties featuredVideoOfVideo5)
             featuredVideoPropertyNamesWithId))
       (start storeWithVideo5)
     = (Normal false,
        {| db := storeWithVideo5;
           trace := [DbGet Video (IdString "5")] |}).
Proof. repeat split; vm_compute; reflexivity. Qed.

(** [transaction] returns [true] exactly when the check it makes of some
    reference of the batch fails.  When it returns [true], the references
    before the first failing one all passed, the store was queried for the
    references up to that one and for none after it; when it returns
    [false], every reference of the batch was checked and passed.  The store
    is left as it was. *)
Lemma transaction_verdict_is_a_fail_fast_scan
  {ext : Collaborators}
  (createEntityOperations : list ICreateEntityOperation)
  (entities : list IEntity) (w : World) :
  let classEntityMap :=
    buildClassEntityMap (db w) createEntityOperations entities in
  let refs := batchReferences classEntityMap in
  let fails := unresolved (db w) classEntityMap in
  exists ignore w',
    await (R' := unit) (transaction createEntityOperations entities) w
    = (Normal ignore, w')
    /\ db w' = db w
    /\ (ignore = true <-> exists rc, In rc refs /\ fails rc = true)
    /\ (ignore = true ->
        exists before rc after,
          refs = before ++ rc :: after
          /\ fails rc = true
          /\ (forall x, In x before -> fails x = false)
          /\ storeQueries (trace w')
             = storeQueries (trace w) ++ queriesOf (before ++ [rc]))
    /\ (ignore = false ->
        (forall rc, In rc refs -> fails rc = false)
        /\ storeQueries (trace w')
           = storeQueries (trace w) ++ queriesOf refs).
Proof.
  intros m refs fails.
  destruct (transaction_scan createEntityOperations entities w)
    as (w' & E & D & T).
  fold m refs fails in E, T.
  exists (existsb fails refs), w'.
  split; [exact E|]. split; [exact D|]. split; [apply existsb_exists|].
  split.
  - intros Hex.
    destruct (scanned_last_fails fails refs Hex) as (before & rc & S & Hrc & Hb).
    destruct (scanned_prefix fails refs) as (after & P).
    exists before, rc, after. rewrite S in P, T.
    rewrite <- app_assoc in P. simpl in P.
    repeat split; auto.
    intros x Hx. destruct (fails x) eqn:Fx; [|reflexivity].
    assert (existsb fails before = true) by (apply existsb_exists; eauto).
    congruence.
  - intros Hex. rewrite (existsb_false_scanned _ _ Hex) in T.
    split; [|exact T].
    intros rc Hrc. destruct (fails rc) eqn:Frc; [|reflexivity].
    assert (existsb fails refs = true) by (apply existsb_exists; eauto).
    congruence.
Qed.

(** C2 (code as written, at the failing input).  The batch holds one
    FeaturedVideo entity; its decoded bag has a single reference, [video],
    with [existing = true], to Video 5.  The store holds the Video row
    with id "5", so in the spec's words the reference is resolved and no
    reference of the batch is unresolved.  [transaction] nevertheless
    returns [true]: the batch is ignored.  The cause is the where-clause of
    the FeaturedVideo arm (see C1); on the same batch with a Channel in
    place of the FeaturedVideo, pointing at the persisted Language 3, the
    verdict is [false]. *)
Theorem C2_batch_ignored_although_no_reference_is_unresolved :
  setEntityPropertyValues (Collaborators := sample)
    (properties featuredVideoOfVideo5) featuredVideoPropertyNamesWithId
  = [("video", {| entityId := 5; existing := true |})]
  /\ sampleGetClassName storeWithVideo5 featuredVideoOfVideo5 [13]
     = Some "FeaturedVideo"
  /\ unresolvedAsSpecified (ext := sample) storeWithVideo5 [13]
       [featuredVideoOfVideo5] Video "Video"
       {| entityId := 5; existing := true |}
     = false
  /\ fst (await (R' := unit)
            (transaction (ext := sample) [13] [featuredVideoOfVideo5])
            (start storeWithVideo5))
     = Normal true
  /\ unresolvedAsSpecified (ext := sample) storeWithLanguage3 [1]
       [channelOfLanguage3] Language "Language"
       {| entityId := 3; existing := true |}
     = false
  /\ fst (await (R' := unit)
            (transaction (ext := sample) [1] [channelOfLanguage3])
            (start storeWithLanguage3))
     = Normal false.
Proof. repeat split; vm_compute; reflexivity. Qed.

(** ** The class-entity map of a batch *)

Lemma Map_get_set_same (m : ClassEntityMap) (k : string) (v : list IEntity) :
  Map_get (Map_set m k v) k = Some v.
Proof.
  induction m as [|[k' v'] m IH]; simpl.
  - now rewrite String.eqb_refl.
  - destruct (String.eqb k' k) eqn:E; simpl.
    + now rewrite String.eqb_refl.
    + now rewrite E.
Qed.

Lemma Map_get_set_other (m : ClassEntityMap) (k k' : string)
  (v : list IEntity) :
  k <> k' -> Map_get (Map_set m k v) k' = Map_get m k'.
Proof.
  intros N. induction m as [|[k0 v0] m IH]; simpl.
  - apply String.eqb_neq in N. now rewrite N.
  - destruct (String.eqb k0 k) eqn:E; simpl.
    + apply String.eqb_eq in E. subst k0.
      apply String.eqb_neq in N. now rewrite N.
    + destruct (String.eqb k0 k'); [reflexivity|exact IH].
Qed.

Section ClassEntityMapFacts.
Context {ext : Collaborators}.
Variable d : DB.
Variable ops : list ICreateEntityOperation.

(** Filing an entity keeps what was filed before it. *)
Lemma fileEntity_keeps (m : ClassEntityMap) (e : IEntity) (cn : string)
  (es0 : list IEntity) :
  Map_get m cn = Some es0 ->
  exists es, Map_get (fileEntity d ops m e) cn = Some es
             /\ incl es0 es.
Proof.
  intros G. unfold fileEntity.
  destruct (getClassName d e ops) as [cn'|].
  - destruct (String.eqb cn' cn) eqn:E.
    + apply String.eqb_eq in E. subst cn'. rewrite G, Map_get_set_same.
      exists (es0 ++ [e]). split; [reflexivity|]. apply incl_appl, incl_refl.
    + apply String.eqb_neq in E. rewrite (Map_get_set_other _ _ E).
      exists es0. split; [exact G|apply incl_refl].
  - exists es0. split; [exact G|apply incl_refl].
Qed.

Lemma fold_fileEntity_keeps (entities : list IEntity) (m : ClassEntityMap)
  (cn : string) (es0 : list IEntity) :
  Map_get m cn = Some es0 ->
  exists es, Map_get (fold_left (fileEntity d ops) entities m) cn = Some es
             /\ incl es0 es.
Proof.
  revert m es0. induction entities as [|e entities IH]; intros m es0 G; simpl.
  - exists es0. split; [exact G|apply incl_refl].
  - destruct (@fileEntity_keeps m e cn es0 G) as (es1 & G1 & I1).
    destruct (IH _ _ G1) as (es & G2 & I2).
    exists es. split; [exact G2|]. eapply incl_tran; eauto.
Qed.

(** Every entity of the batch whose class name resolves is filed under
    that name, wherever it stands in the batch. *)
Lemma fold_fileEntity_files (entities : list IEntity) (m : ClassEntityMap)
  (e : IEntity) (cn : string) :
  In e entities -> getClassName d e ops = Some cn ->
  exists es, Map_get (fold_left (fileEntity d ops) entities m) cn = Some es
             /\ In e es.
Proof.
  revert m. induction entities as [|x entities IH]; intros m HIn Hcn; simpl.
  - destruct HIn.
  - destruct HIn as [->|HIn].
    + assert (F : exists es1, Map_get (fileEntity d ops m e) cn = Some es1
                              /\ In e es1).
      { unfold fileEntity. rewrite Hcn, Map_get_set_same.
        destruct (Map_get m cn) as [es0|]; eexists; split; try reflexivity.
        - apply in_or_app. right. now left.
        - now left. }
      destruct F as (es1 & G1 & I1).
      destruct (@fold_fileEntity_keeps entities _ cn es1 G1) as (es & G & I).
      exists es. split; [exact G|]. apply I, I1.
    + apply IH; assumption.
Qed.

Lemma getEntity_of_batch_entity (entities : list IEntity) (B : IEntity)
  (Y : string) (b : Z) :
  In B entities -> getClassName d B ops = Some Y -> indexOf B = Some b ->
  getEntity (buildClassEntityMap d ops entities) Y b = false.
Proof.
  intros HIn Hcn Hb. unfold getEntity, buildClassEntityMap.
  destruct (@fold_fileEntity_files entities [] B Y HIn Hcn) as (es & G & I).
  rewrite G.
  destruct (find (indexOf_is b) es) eqn:F; [reflexivity|].
  pose proof (find_none _ _ F _ I) as N.
  unfold indexOf_is in N. rewrite Hb, Z.eqb_refl in N. discriminate.
Qed.

End ClassEntityMapFacts.

(** ** Applying a batch *)

Lemma Model_eqb_refl (m : Model) : Model_eqb m m = true.
Proof. destruct m; reflexivity. Qed.

Lemma matches_own_row (m : Model) (id : string) :
  matches m (IdString id) {| row_model := m; row_id := id |} = true.
Proof.
  unfold matches. simpl. now rewrite Model_eqb_refl, String.eqb_refl.
Qed.

Lemma lookup_present (d : DB) (m : Model) (id : string) :
  In {| row_model := m; row_id := id |} (typedRows d) ->
  isSome (lookup d m (IdString id)) = true.
Proof.
  intros HIn. unfold lookup.
  destruct (find (matches m (IdString id)) (typedRows d)) eqn:F;
    [reflexivity|].
  pose proof (find_none _ _ F _ HIn) as N.
  rewrite matches_own_row in N. discriminate.
Qed.

Section BatchFacts.
Context {ext : Collaborators}.

Lemma materialize_batch (block : Z) (d : DB)
  (ops : list ICreateEntityOperation) (entities : list IEntity) (w : World) :
  exists w',
    forOf (R := unit) entities
      (fun entity _ =>
         match getClassName d entity ops, indexOf entity with
         | Some className, Some i =>
             match switchOn className with
             | Some c =>
                 await (materialize c
                          {| arg_block := block; arg_id := toString i |})
             | None => ret tt
             end
         | _, _ => ret tt
         end)
      tt w
    = (Normal tt, w')
    /\ typedRows (db w') = typedRows (db w) ++ batchRows d ops entities.
Proof.
  revert w. induction entities as [|e entities IH]; intros w.
  - exists w. simpl. now rewrite app_nil_r.
  - cbn [forOf batchRows flat_map]. unfold bind.
    destruct (getClassName d e ops) as [cn|].
    + destruct (indexOf e) as [i|].
      * destruct (switchOn cn) as [c|].
        -- unfold await at 1, materialize at 1. cbn [fst snd].
           match goal with |- context [forOf entities ?f tt ?w1] =>
             destruct (IH w1) as (w' & E & T) end.
           exists w'. split; [exact E|].
           rewrite T. simpl. now rewrite <- app_assoc.
        -- destruct (IH w) as (w' & E & T). exists w'. auto.
      * destruct (IH w) as (w' & E & T). exists w'. auto.
    + destruct (IH w) as (w' & E & T). exists w'. auto.
Qed.

Lemma batchRows_of_entity (d : DB) (ops : list ICreateEntityOperation)
  (entities : list IEntity) (e : IEntity) (cn : string)
  (c : ContentDirectoryKnownClasses) (i : Z) :
  In e entities -> getClassName d e ops = Some cn -> switchOn cn = Some c ->
  indexOf e = Some i ->
  In {| row_model := modelOf c; row_id := toString i |}
    (batchRows d ops entities).
Proof.
  intros HIn Hcn Hsw Hi. unfold batchRows. apply in_flat_map.
  exists e. split; [exact HIn|]. rewrite Hcn, Hi, Hsw. now left.
Qed.

End BatchFacts.

(** C3.  A batch in which entity [A] of a known class carries an
    [existing = false] reference to entity [B], created later in the same
    batch and of the class the reference is looked up under, is not ignored
    by the validator when the other references of the batch resolve; applied
    (by the batch application of the spec), it leaves the rows of both [A]
    and [B] in the store. *)
Theorem C3_reference_to_entity_created_later_in_batch
  {ext : Collaborators} (block : Z)
  (ops : list ICreateEntityOperation) (entities : list IEntity) (w : World)
  (A B : IEntity) (cnA cnB : string) (X Y : ContentDirectoryKnownClasses)
  (a b : Z) (rc : ReferenceCheck) :
  let classEntityMap := buildClassEntityMap (db w) ops entities in
  (exists pre mid post, entities = pre ++ A :: mid ++ B :: post) ->
  getClassName (db w) A ops = Some cnA -> switchOn cnA = Some X ->
  indexOf A = Some a ->
  getClassName (db w) B ops = Some cnB -> switchOn cnB = Some Y ->
  indexOf B = Some b ->
  In rc (entityReferences cnA A) ->
  existing (rc_ref rc) = false ->
  entityId (rc_ref rc) = b ->
  rc_class rc = cnB ->
  (forall rc', In rc' (batchReferences classEntityMap) -> rc' <> rc ->
               unresolved (db w) classEntityMap rc' = false) ->
  exists w1 w2,
    await (R' := unit) (transaction ops entities) w = (Normal false, w1)
    /\ applyBatch block ops entities w = (Normal tt, w2)
    /\ isSome (lookup (db w2) (modelOf X) (IdString (toString a))) = true
    /\ isSome (lookup (db w2) (modelOf Y) (IdString (toString b))) = true.
Proof.
  intros m (pre & mid & post & Hsplit) HcA HsA HiA HcB HsB HiB Hrc Hex Hid Hcl
    Hothers.
  assert (InA : In A entities).
  { rewrite Hsplit. apply in_or_app. right. now left. }
  assert (InB : In B entities).
  { rewrite Hsplit. apply in_or_app. right. right.
    apply in_or_app. right. now left. }
  assert (Frc : unresolved (db w) m rc = false).
  { unfold unresolved. rewrite Hex, Hid, Hcl.
    apply (@getEntity_of_batch_entity ext (db w) ops entities B cnB b);
      assumption. }
  assert (Fall : existsb (unresolved (db w) m) (batchReferences m) = false).
  { destruct (existsb (unresolved (db w) m) (batchReferences m)) eqn:Ex;
      [|reflexivity].
    apply existsb_exists in Ex as (rc' & HIn & Hf).
    rewrite (Hothers rc' HIn) in Hf; [discriminate|].
    intros ->. congruence. }
  destruct (transaction_scan ops entities w) as (w1 & E & D & _).
  fold m in E. rewrite Fall in E.
  destruct (materialize_batch block (db w) ops entities w1) as (w2 & E2 & T).
  exists w1, w2. split; [exact E|].
  assert (Eb : applyBatch block ops entities w = (Normal tt, w2)).
  { unfold applyBatch, bind. rewrite E. exact E2. }
  split; [exact Eb|].
  split; apply lookup_present; rewrite T; apply in_or_app; right.
  - apply (@batchRows_of_entity ext (db w) ops entities A cnA X a);
      assumption.
  - apply (@batchRows_of_entity ext (db w) ops entities B cnB Y b);
      assumption.
Qed.

(** C3 on the sample batch: a Video whose [channel] is the Channel created
    after it. *)
Lemma C3_witness :
  exists w1 w2,
    await (R' := unit)
      (transaction (ext := sample) [8; 1] [videoOfNewChannel; newChannel])
      (start emptyDB)
    = (Normal false, w1)
    /\ applyBatch (ext := sample) 100 [8; 1] [videoOfNewChannel; newChannel]
         (start emptyDB)
       = (Normal tt, w2)
    /\ isSome (lookup (db w2) (modelOf VIDEO) (IdString (toString 0))) = true
    /\ isSome (lookup (db w2) (modelOf CHANNEL) (IdString (toString 1)))
       = true.
Proof.
  apply (@C3_reference_to_entity_created_later_in_batch sample 100 [8; 1]
           [videoOfNewChannel; newChannel] (start emptyDB)
           videoOfNewChannel newChannel "Video" "Channel" VIDEO CHANNEL 0 1
           {| rc_ref := {| entityId := 1; existing := false |};
              rc_model := Channel; rc_where := IdString "1";
              rc_class := "Channel" |}).
  - exists [], [], []. reflexivity.
  - reflexivity.
  - reflexivity.
  - reflexivity.
  - reflexivity.
  - reflexivity.
  - reflexivity.
  - left. reflexivity.
  - reflexivity.
  - reflexivity.
  - reflexivity.
  - intros rc' [<-|[]] N. now elim N.
Defined.

(** ** The dispatcher *)

Lemma find_after_filter_out {A : Type} (f : A -> bool) (l : list A) :
  find f (filter (fun x => negb (f x)) l) = None.
Proof.
  induction l as [|x l IH]; simpl; [reflexivity|].
  destruct (f x) eqn:F; simpl; [exact IH|].
  now rewrite F.
Qed.

Lemma find_appended {A : Type} (f : A -> bool) (l : list A) (x : A) :
  f x = true -> find f (filter (fun y => negb (f y)) l ++ [x]) = Some x.
Proof.
  intros Fx. induction l as [|y l IH]; simpl.
  - now rewrite Fx.
  - destruct (f y) eqn:F; simpl; [exact IH|].
    now rewrite F.
Qed.

Lemma lookupClassEntity_saved (d : DB) (c : ClassEntity) :
  lookupClassEntity (saveClassEntity d c) (ce_id c) = Some c.
Proof.
  unfold lookupClassEntity, saveClassEntity. simpl.
  apply (find_appended (fun x => String.eqb (ce_id x) (ce_id c))).
  apply String.eqb_refl.
Qed.

Lemma lookupClassEntity_removed (d : DB) (c : ClassEntity) :
  lookupClassEntity (removeClassEntity d c) (ce_id c) = None.
Proof.
  unfold lookupClassEntity, removeClassEntity. simpl.
  apply (find_after_filter_out (fun x => String.eqb (ce_id x) (ce_id c))).
Qed.

Lemma lookupClassEntity_id (d : DB) (id : string) (c : ClassEntity) :
  lookupClassEntity d id = Some c -> ce_id c = id.
Proof.
  intros F. apply find_some in F as [_ E]. now apply String.eqb_eq.
Qed.

Section Dispatcher.
Context {ext : Collaborators}.

Lemma resolveClass_known (d : DB) (id : string) (kc : IKnownClass)
  (ce : option ClassEntity) :
  resolveClass d id = (Some kc, ce) ->
  exists c, ce = Some c /\ ce_id c = id.
Proof.
  unfold resolveClass. intros E.
  destruct (lookupClassEntity d id) as [c|] eqn:L; [|discriminate].
  inversion E. exists c. split; [reflexivity|].
  now apply lookupClassEntity_id with (d := d).
Qed.

(** [await removeX(db, where)], through the handler of ./remove. *)
Lemma await_remove (c : ContentDirectoryKnownClasses) (where_ : IWhereCond)
  (w : World) :
  await (R' := unit) (remove c where_) w
  = await (removeEntity c where_)
      {| db := db w;
         trace := trace w ++ [Handler Remove c (where_id where_)] |}.
Proof. reflexivity. Qed.

(** [contentDirectory_EntityRemoved] once the class is resolved to a member
    of the enumeration: the typed remove, then the ClassEntity row. *)
Lemma EntityRemoved_known (event : SubstrateEvent) (w : World)
  (kc : IKnownClass) (ce : option ClassEntity)
  (c : ContentDirectoryKnownClasses) :
  resolveClass (db w) (stringIfyEntityId event) = (Some kc, ce) ->
  switchOn (name kc) = Some c ->
  contentDirectory_EntityRemoved event w
  = bind (await (remove c {| where_id := stringIfyEntityId event |}))
      (fun _ => db_remove_ClassEntity ce) w.
Proof.
  intros R S.
  unfold contentDirectory_EntityRemoved, getKnownClass.
  unfold bind at 1, await at 1. cbn [where_id]. rewrite R, S.
  destruct c; reflexivity.
Qed.

Lemma EntityRemoved_outside_enumeration (event : SubstrateEvent) (w : World)
  (kc : IKnownClass) (ce : option ClassEntity) :
  resolveClass (db w) (stringIfyEntityId event) = (Some kc, ce) ->
  switchOn (name kc) = None ->
  contentDirectory_EntityRemoved event w
  = (Throw (unknownClassName (name kc)), w).
Proof.
  intros R S.
  unfold contentDirectory_EntityRemoved, getKnownClass.
  unfold bind at 1, await at 1. cbn [where_id]. rewrite R, S.
  reflexivity.
Qed.

Lemma EntityRemoved_unknown (event : SubstrateEvent) (w : World) :
  fst (resolveClass (db w) (stringIfyEntityId event)) = None ->
  contentDirectory_EntityRemoved event w = (Return tt, w).
Proof.
  intros R.
  unfold contentDirectory_EntityRemoved, getKnownClass.
  unfold bind at 1, await at 1. cbn [where_id].
  destruct (resolveClass (db w) (stringIfyEntityId event)) as [kc ce].
  simpl in R. subst kc. reflexivity.
Qed.

End Dispatcher.

(** C4 (the claim fails at this input).  Entity 10 is of class id 50, which
    the registry does not know.  A property-update event for it, and a
    removal event for it, finish without raising anything and leave the
    store as it was. *)
Lemma C4_unknown_class_update_and_removal_raise_nothing :
  let w := start (storeWithEntity10 50 []) in
  fst (resolveClass (ext := sample) (db w)
         (stringIfyEntityId (updateEvent [])))
  = None
  /\ await (R' := unit)
       (contentDirectory_EntityPropertyValuesUpdated (ext := sample)
          (updateEvent []))
       w
     = (Normal tt, w)
  /\ await (R' := unit)
       (contentDirectory_EntityRemoved (ext := sample)
          (removalEvent "removeEntity"))
       w
     = (Normal tt, w)
  /\ ~ (exists msg w',
          await (R' := unit)
            (contentDirectory_EntityPropertyValuesUpdated (ext := sample)
               (updateEvent []))
            w
          = (Throw msg, w')).
Proof.
  repeat split; try (vm_compute; reflexivity).
  intros (msg & w' & E). vm_compute in E. discriminate.
Qed.

(** C4, amended.  An entity that resolves to an unknown class is handled
    alike by the three event kinds: EntitySchemaSupportAdded, EntityRemoved
    and EntityPropertyValuesUpdated (for an event that carries its
    extrinsic) drop the event without raising an error and without touching
    the store. *)
Theorem C4_unknown_class_is_dropped_silently_by_every_handler
  {ext : Collaborators} (event : SubstrateEvent) (w : World) :
  fst (resolveClass (db w) (stringIfyEntityId event)) = None ->
  await (R' := unit) (contentDirectory_EntitySchemaSupportAdded event) w
  = (Normal tt, w)
  /\ await (R' := unit) (contentDirectory_EntityRemoved event) w
     = (Normal tt, w)
  /\ (extrinsic event <> None ->
      await (R' := unit) (contentDirectory_EntityPropertyValuesUpdated event)
        w
      = (Normal tt, w)).
Proof.
  intros R. split; [|split].
  - unfold await, contentDirectory_EntitySchemaSupportAdded, getKnownClass.
    destruct (isTransaction (extrinsic event)); [reflexivity|].
    unfold bind at 1, await at 1. cbn [where_id].
    destruct (resolveClass (db w) (stringIfyEntityId event)) as [kc ce].
    simpl in R. subst kc. reflexivity.
  - unfold await. now rewrite EntityRemoved_unknown.
  - intros X.
    unfold await, contentDirectory_EntityPropertyValuesUpdated, getKnownClass.
    destruct (isTransaction (extrinsic event)); [reflexivity|].
    destruct (extrinsic event) as [x|]; [|now elim X].
    unfold bind at 1, await at 1. cbn [where_id].
    destruct (resolveClass (db w) (stringIfyEntityId event)) as [kc ce].
    simpl in R. subst kc. reflexivity.
Qed.

(** The amended C4 on the sample store, for entity 10 of the unknown class
    id 50. *)
Lemma C4_witness :
  let w := start (storeWithEntity10 50 []) in
  await (R' := unit)
    (contentDirectory_EntitySchemaSupportAdded (ext := sample)
       (updateEvent []))
    w
  = (Normal tt, w)
  /\ await (R' := unit)
       (contentDirectory_EntityRemoved (ext := sample) (updateEvent [])) w
     = (Normal tt, w)
  /\ await (R' := unit)
       (contentDirectory_EntityPropertyValuesUpdated (ext := sample)
          (updateEvent []))
       w
     = (Normal tt, w).
Proof.
  destruct (@C4_unknown_class_is_dropped_silently_by_every_handler sample
              (updateEvent []) (start (storeWithEntity10 50 []))
              eq_refl)
    as (Added & Removed & Updated).
  split; [exact Added|]. split; [exact Removed|].
  apply Updated. discriminate.
Defined.

(** C7.  Provided a typed remove that succeeds has deleted the typed row
    and one that fails has left the store alone, an EntityRemoved event
    goes one of four ways.  (1) The class resolves to a member of the
    enumeration and its typed remove succeeds: the dispatcher removes the
    ClassEntity row as its very next step, on the store the typed remove
    left, and afterwards neither the typed row nor the ClassEntity row
    exists.  (2) The typed remove fails: its error is the error of the
    event, the dispatcher does not remove the ClassEntity row and the
    store is what it was.  (3) The class name is outside the enumeration:
    the event throws, nothing is removed.  (4) The class is unknown: the
    event returns, nothing is removed. *)
Theorem C7_removal_deletes_both_rows_or_neither
  {ext : Collaborators}
  (typed_remove_deletes :
     forall c where_ w w',
       await (R' := unit) (removeEntity c where_) w = (Normal tt, w') ->
       lookup (db w') (modelOf c) (IdString (where_id where_)) = None)
  (failed_remove_changes_nothing :
     forall c where_ w msg w',
       await (R' := unit) (removeEntity c where_) w = (Throw msg, w') ->
       db w' = db w)
  (event : SubstrateEvent) (w : World) :
  let id := stringIfyEntityId event in
  (forall kc ce c w1,
      resolveClass (db w) id = (Some kc, Some ce) ->
      switchOn (name kc) = Some c ->
      await (R' := unit) (remove c {| where_id := id |}) w = (Normal tt, w1) ->
      await (R' := unit) (contentDirectory_EntityRemoved event) w
      = (Normal tt,
         {| db := removeClassEntity (db w1) ce;
            trace := trace w1 ++ [DbRemoveClassEntity id] |})
      /\ lookup (removeClassEntity (db w1) ce) (modelOf c) (IdString id)
         = None
      /\ lookupClassEntity (removeClassEntity (db w1) ce) id = None)
  /\ (forall kc ce c msg w1,
         resolveClass (db w) id = (Some kc, ce) ->
         switchOn (name kc) = Some c ->
         await (R' := unit) (remove c {| where_id := id |}) w
         = (Throw msg, w1) ->
         await (R' := unit) (contentDirectory_EntityRemoved event) w
         = (Throw msg, w1)
         /\ db w1 = db w)
  /\ (forall kc ce,
         resolveClass (db w) id = (Some kc, ce) ->
         switchOn (name kc) = None ->
         await (R' := unit) (contentDirectory_EntityRemoved event) w
         = (Throw (unknownClassName (name kc)), w))
  /\ (fst (resolveClass (db w) id) = None ->
      await (R' := unit) (contentDirectory_EntityRemoved event) w
      = (Normal tt, w)).
Proof.
  intros id. split; [|split; [|split]].
  - intros kc ce c w1 R S E.
    destruct (resolveClass_known R) as (c0 & C0 & Hid).
    inversion C0. subst c0.
    split; [|split].
    + unfold await at 1. rewrite (EntityRemoved_known event w R S).
      unfold bind. fold id. rewrite E. simpl. now rewrite Hid.
    + rewrite await_remove in E. cbn [where_id] in E.
      apply (typed_remove_deletes _ _ _ _ E).
    + rewrite <- Hid. apply lookupClassEntity_removed.
  - intros kc ce c msg w1 R S E. split.
    + unfold await at 1. rewrite (EntityRemoved_known event w R S).
      unfold bind. fold id. now rewrite E.
    + rewrite await_remove in E.
      apply (failed_remove_changes_nothing _ _ _ _ _ E).
  - intros kc ce R S. unfold await.
    now rewrite (EntityRemoved_outside_enumeration event w R S).
  - intros R. unfold await. now rewrite EntityRemoved_unknown.
Qed.

Lemma sample_delete_deletes (c : ContentDirectoryKnownClasses)
  (where_ : IWhereCond) (w w' : World) :
  await (R' := unit) (removeEntity (Collaborators := sample) c where_) w
  = (Normal tt, w') ->
  lookup (db w') (modelOf c) (IdString (where_id where_)) = None.
Proof.
  unfold await. simpl. unfold delete. intros E. inversion E. simpl.
  unfold lookup. simpl.
  apply (find_after_filter_out
           (matches (modelOf c) (IdString (where_id where_)))).
Qed.

Lemma sample_delete_never_fails (c : ContentDirectoryKnownClasses)
  (where_ : IWhereCond) (w : World) (msg : string) (w' : World) :
  await (R' := unit) (removeEntity (Collaborators := sample) c where_) w
  = (Throw msg, w') ->
  db w' = db w.
Proof. unfold await. simpl. unfold delete. discriminate. Qed.

(** C7 with the remove handler of the spec, for the Video entity 10: the
    Video row and the ClassEntity row are both gone after the event. *)
Lemma C7_witness :
  let store := storeWithEntity10 8 [{| row_model := Video; row_id := "10" |}] in
  let after :=
    {| typedRows := []; classEntities := []; nextEntityIdRow := Some 11;
       blocks := [99] |} in
  isSome (lookup store Video (IdString "10")) = true
  /\ isSome (lookupClassEntity store "10") = true
  /\ await (R' := unit)
       (contentDirectory_EntityRemoved (ext := sample)
          (removalEvent "removeEntity"))
       (start store)
     = (Normal tt,
        {| db := after;
           trace := [Handler Remove VIDEO "10"; DbRemoveClassEntity "10"] |})
  /\ lookup after Video (IdString "10") = None
  /\ lookupClassEntity after "10" = None.
Proof.
  destruct (@C7_removal_deletes_both_rows_or_neither sample
              sample_delete_deletes sample_delete_never_fails
              (removalEvent "removeEntity")
              (start (storeWithEntity10 8
                        [{| row_model := Video; row_id := "10" |}])))
    as (Removes & _).
  destruct (Removes {| name := "Video"; classId := 8 |}
              {| ce_id := "10"; ce_classId := 8; ce_version := 99;
                 ce_happenedIn := 99 |}
              VIDEO
              {| db := {| typedRows := [];
                          classEntities :=
                            [{| ce_id := "10"; ce_classId := 8;
                                ce_version := 99; ce_happenedIn := 99 |}];
                          nextEntityIdRow := Some 11;
                          blocks := [99] |};
                 trace := [Handler Remove VIDEO "10"] |}
              eq_refl eq_refl eq_refl)
    as (Run & Typed & Generic).
  split; [reflexivity|]. split; [reflexivity|].
  split; [exact Run|]. split; [exact Typed|exact Generic].
Defined.

(** On safe integers, adding one is exact. *)
Lemma Number_add_one_safe (n : Z) :
  Z.abs n < 2 ^ 53 -> Number_add n 1 = n + 1.
Proof.
  intros B. unfold Number_add, Number_ofZ.
  replace (2 ^ 53) with 9007199254740992 in * by reflexivity.
  destruct (Z.ltb_spec (Z.abs (n + 1)) 9007199254740992) as [L|L];
    [reflexivity|].
  assert (E : n = 9007199254740991) by lia.
  subst n. vm_compute. reflexivity.
Qed.

(** C8.  An EntityCreated event that is not a transaction wrapper leaves
    in the store the ClassEntity row whose id is the entity id in string
    form, whose class id is the one of the event and whose version is the
    block height; the next-entity-id counter holds [entityId + 1] as the
    program computes it on Numbers, which for an entity id that is a safe
    integer is the entity id plus one; the typed rows are what they were.
    The handler never asks the registry for the class, so this holds for
    classes inside and outside the known-class enumeration alike. *)
Theorem C8_entity_created_writes_class_entity_and_counter_only
  (event : SubstrateEvent) (w : World) :
  isTransaction (extrinsic event) = false ->
  exists w',
    await (R' := unit) (contentDirectory_EntityCreated event) w
    = (Normal tt, w')
    /\ lookupClassEntity (db w') (toString (param_entityId event))
       = Some {| ce_id := toString (param_entityId event);
                 ce_classId := param_classId event;
                 ce_version := blockNumber event;
                 ce_happenedIn := blockNumber event |}
    /\ nextEntityIdRow (db w') = Some (Number_add (param_entityId event) 1)
    /\ (Z.abs (param_entityId event) < 2 ^ 53 ->
        nextEntityIdRow (db w') = Some (param_entityId event + 1))
    /\ typedRows (db w') = typedRows (db w).
Proof.
  intros T. unfold await, contentDirectory_EntityCreated. rewrite T.
  unfold bind, await, createBlockOrGetFromDatabase, db_save_ClassEntity,
    getOrCreate_nextEntityId, getClassEntity, bind, log.
  set (c := {| ce_id := toString (param_entityId event);
               ce_classId := param_classId event;
               ce_version := blockNumber event;
               ce_happenedIn := blockNumber event |}).
  destruct (existsb (Z.eqb (blockNumber event)) (blocks (db w)));
    cbn [fst snd c_classId c_entityId db trace];
    (eexists; split; [reflexivity|]);
    cbn [db typedRows nextEntityIdRow saveClassEntity];
    (split;
     [|split; [reflexivity|split; [|reflexivity]];
       intros B; now rewrite (Number_add_one_safe _ B)]);
    unfold lookupClassEntity; cbn [classEntities];
    apply (find_appended
             (fun x => String.eqb (ce_id x) (toString (param_entityId event))));
    apply String.eqb_refl.
Qed.

(** C8 for an entity created with class id 50, which the sample registry
    does not know: the row of entity 10 is written and the counter is 11. *)
Lemma C8_witness :
  exists w',
    await (R' := unit) (contentDirectory_EntityCreated (creationEvent 50))
      (start emptyDB)
    = (Normal tt, w')
    /\ lookupClassEntity (db w') "10"
       = Some {| ce_id := "10"; ce_classId := 50; ce_version := 99;
                 ce_happenedIn := 99 |}
    /\ nextEntityIdRow (db w') = Some 11
    /\ typedRows (db w') = [].
Proof.
  destruct (@C8_entity_created_writes_class_entity_and_counter_only
              (creationEvent 50) (start emptyDB) eq_refl)
    as (w' & Run & Row & _ & Counter & Typed).
  exists w'. split; [exact Run|]. split; [exact Row|].
  split; [|exact Typed].
  apply Counter. reflexivity.
Defined.

(** C10.  When the extrinsic method of the event is 'transaction',
    EntityCreated, EntitySchemaSupportAdded and EntityPropertyValuesUpdated
    return at once and leave store and trace alone.  EntityRemoved has no
    such test: for an entity of a class of the enumeration it invokes the
    typed remove and, when that succeeds, removes the ClassEntity row. *)
Theorem C10_entity_removed_processes_transaction_events
  {ext : Collaborators} (event : SubstrateEvent) (x : SubstrateExtrinsic)
  (w : World) (kc : IKnownClass) (ce : ClassEntity)
  (c : ContentDirectoryKnownClasses) (w1 : World) :
  extrinsic event = Some x ->
  method x = "transaction" ->
  resolveClass (db w) (stringIfyEntityId event) = (Some kc, Some ce) ->
  switchOn (name kc) = Some c ->
  await (R' := unit)
    (removeEntity c {| where_id := stringIfyEntityId event |})
    {| db := db w;
       trace := trace w ++ [Handler Remove c (stringIfyEntityId event)] |}
  = (Normal tt, w1) ->
  await (R' := unit) (contentDirectory_EntityCreated event) w = (Normal tt, w)
  /\ await (R' := unit) (contentDirectory_EntitySchemaSupportAdded event) w
     = (Normal tt, w)
  /\ await (R' := unit) (contentDirectory_EntityPropertyValuesUpdated event) w
     = (Normal tt, w)
  /\ await (R' := unit) (contentDirectory_EntityRemoved event) w
     = (Normal tt,
        {| db := removeClassEntity (db w1) ce;
           trace := trace w1 ++ [DbRemoveClassEntity (ce_id ce)] |}).
Proof.
  intros X M R S E.
  assert (T : isTransaction (extrinsic event) = true).
  { rewrite X. simpl. rewrite M. reflexivity. }
  repeat split.
  - unfold await, contentDirectory_EntityCreated. now rewrite T.
  - unfold await, contentDirectory_EntitySchemaSupportAdded. now rewrite T.
  - unfold await, contentDirectory_EntityPropertyValuesUpdated. now rewrite T.
  - unfold await at 1. rewrite (EntityRemoved_known event w R S).
    unfold bind. rewrite await_remove. cbn [where_id]. rewrite E.
    reflexivity.
Qed.

(** C10 for a removal event of the Video entity 10 whose extrinsic method
    is 'transaction'. *)
Lemma C10_witness :
  let event := removalEvent "transaction" in
  let w := start (storeWithEntity10 8
                    [{| row_model := Video; row_id := "10" |}]) in
  await (R' := unit) (contentDirectory_EntityCreated event) w = (Normal tt, w)
  /\ await (R' := unit)
       (contentDirectory_EntitySchemaSupportAdded (ext := sample) event) w
     = (Normal tt, w)
  /\ await (R' := unit)
       (contentDirectory_EntityPropertyValuesUpdated (ext := sample) event) w
     = (Normal tt, w)
  /\ await (R' := unit)
       (contentDirectory_EntityRemoved (ext := sample) event) w
     = (Normal tt,
        {| db := {| typedRows := [];
                    classEntities := [];
                    nextEntityIdRow := Some 11;
                    blocks := [99] |};
           trace := [Handler Remove VIDEO "10"; DbRemoveClassEntity "10"] |}).
Proof.
  apply (@C10_entity_removed_processes_transaction_events sample
           (removalEvent "transaction")
           {| method := "transaction"; args := [ArgScalar 10] |}
           (start (storeWithEntity10 8
                     [{| row_model := Video; row_id := "10" |}]))
           {| name := "Video"; classId := 8 |}
           {| ce_id := "10"; ce_classId := 8; ce_version := 99;
              ce_happenedIn := 99 |}
           VIDEO
           {| db := {| typedRows := [];
                       classEntities :=
                         [{| ce_id := "10"; ce_classId := 8; ce_version := 99;
                             ce_happenedIn := 99 |}];
                       nextEntityIdRow := Some 11;
                       blocks := [99] |};
              trace := [Handler Remove VIDEO "10"] |});
    reflexivity.
Defined.

(** ** The single-entity checks *)





Section StandaloneEvents.
Context {ext : Collaborators}.



End StandaloneEvents.

(** C5 (code as written, at the failing input).  Entity 10 is of class
    Channel; its [language] reference points at Language 3, which the store
    holds, so the single-entity check settles to [false].  The
    schema-attach handler nevertheless returns on the promise of the check:
    createChannel is not invoked and no Channel row appears.  For a class
    without references, here Category, the create handler is invoked and
    the typed row is attached. *)
Theorem C5_channel_schema_attach_never_reaches_create_handler :
  let store := storeWithEntity10 1 [{| row_model := Language; row_id := "3" |}] in
  let event := schemaEvent [pointer 3] in
  resolveClass (ext := sample) store (stringIfyEntityId event)
  = (Some {| name := "Channel"; classId := 1 |},
     Some {| ce_id := "10"; ce_classId := 1; ce_version := 99;
             ce_happenedIn := 99 |})
  /\ isTransaction (extrinsic event) = false
  /\ fst (await (R' := unit)
            (channel (setProperties (Collaborators := sample) event
                        channelPropertyNamesWithId))
            (start store))
     = Normal false
  /\ await (R' := unit)
       (contentDirectory_EntitySchemaSupportAdded (ext := sample) event)
       (start store)
     = (Normal tt,
        {| db := store;
           trace := [Decode channelPropertyNamesWithId;
                     DbGet Language (IdString "3")] |})
  /\ lookup store Channel (IdString "10") = None
  /\ await (R' := unit)
       (contentDirectory_EntitySchemaSupportAdded (ext := sample)
          (schemaEvent []))
       (start (storeWithEntity10 2 []))
     = (Normal tt,
        {| db := storeWithEntity10 2
                   [{| row_model := Category; row_id := "10" |}];
           trace := [Decode categoryPropertyNamesWithId;
                     Handler Create CATEGORY "10"] |}).
Proof. repeat split; vm_compute; reflexivity. Qed.



(** C9 (code as written, at the failing inputs).  Entity 10 carries one
    reference as its first property value.  When it is of class VideoMedia,
    the schema-attach handler and the update handler decode its values with
    the layout of Video; when it is of class License or MediaLocation, the
    update handler decodes them with the layout of VideoMediaEncoding.  With
    the sample layouts the VideoMedia bag then names the reference
    [category] instead of [encoding].  [transaction] decodes a VideoMedia
    entity with the VideoMedia layout, and the schema-attach handler decodes
    a License with the License layout. *)
Theorem C9_handlers_decode_with_the_layout_of_another_class :
  let attach := schemaEvent [pointer 4] in
  let change := updateEvent [pointer 4] in
  let tracedBy (h : SubstrateEvent -> Async unit unit) event classId_ :=
    trace (snd (await (R' := unit) (h event)
                  (start (storeWithEntity10 classId_ [])))) in
  switchOn "VideoMedia" = Some VIDEOMEDIA
  /\ layoutOf VIDEOMEDIA = videoMediaPropertyNamesWithId
  /\ tracedBy (contentDirectory_EntitySchemaSupportAdded (ext := sample))
       attach 7
     = [Decode videoPropertyNamesWithId]
  /\ tracedBy (contentDirectory_EntityPropertyValuesUpdated (ext := sample))
       change 7
     = [Decode videoPropertyNamesWithId]
  /\ tracedBy (contentDirectory_EntityPropertyValuesUpdated (ext := sample))
       change 11
     = [Decode videoMediaEncodingPropertyNamesWithId]
  /\ tracedBy (contentDirectory_EntityPropertyValuesUpdated (ext := sample))
       change 12
     = [Decode videoMediaEncodingPropertyNamesWithId]
  /\ setProperties (Collaborators := sample) attach videoPropertyNamesWithId
     = [("category", {| entityId := 4; existing := true |})]
  /\ setProperties (Collaborators := sample) attach
       videoMediaPropertyNamesWithId
     = [("encoding", {| entityId := 4; existing := true |})]
  /\ tracedBy (contentDirectory_EntitySchemaSupportAdded (ext := sample))
       attach 11
     = [Decode licensePropertyNamesWithId;
        DbGet KnownLicenseEntity (IdString "4")]
  /\ trace (snd (await (R' := unit)
                   (transaction (ext := sample) [7]
                      [{| indexOf := Some 0; properties := [pointer 4] |}])
                   (start emptyDB)))
     = [Decode videoMediaPropertyNamesWithId;
        DbGet VideoMediaEncoding (IdString "4")].
Proof. repeat split; vm_compute; reflexivity. Qed.

(* ================================================================== *)
(** * Further properties of ignoreOperation.ts *)

(** ** [getEntity] and the class-entity map *)

Lemma isSome_find_existsb {A : Type} (f : A -> bool) (l : list A) :
  isSome (find f l) = existsb f l.
Proof.
  induction l as [|x l IH]; simpl; [reflexivity|].
  destruct (f x); simpl; [reflexivity|exact IH].
Qed.

Lemma existsb_filter_conj {A : Type} (p q : A -> bool) (l : list A) :
  existsb q (filter p l) = existsb (fun x => p x && q x) l.
Proof.
  induction l as [|x l IH]; simpl; [reflexivity|].
  destruct (p x); simpl; [now rewrite IH|exact IH].
Qed.

Lemma indexOf_is_true (id : Z) (e : IEntity) :
  indexOf_is id e = true <-> indexOf e = Some id.
Proof.
  unfold indexOf_is. destruct (indexOf e) as [i|].
  - rewrite Z.eqb_eq. split; [now intros ->|now intros [= ->]].
  - split; discriminate.
Qed.

(** [getEntity] reports a reference as resolved ([false]) exactly when an
    entity filed under the class name has the referenced id as its
    [indexOf]; a class name that is not a key of the map leaves every
    reference unresolved. *)
Theorem getEntity_resolved_iff (classEntityMap : ClassEntityMap)
  (className : string) (id : Z) :
  getEntity classEntityMap className id = false
  <-> exists es e,
        Map_get classEntityMap className = Some es
        /\ In e es /\ indexOf e = Some id.
Proof.
  unfold getEntity. split.
  - destruct (Map_get classEntityMap className) as [es|]; [|discriminate].
    destruct (find (indexOf_is id) es) as [e|] eqn:F; [|discriminate].
    intros _. apply find_some in F as [HIn Hid].
    exists es, e. repeat split; auto. now apply indexOf_is_true.
  - intros (es & e & G & HIn & Hid). rewrite G.
    destruct (find (indexOf_is id) es) eqn:F; [reflexivity|].
    pose proof (find_none _ _ F _ HIn) as N.
    apply indexOf_is_true in Hid. congruence.
Qed.

Lemma Map_get_None_keys (m : ClassEntityMap) (k : string) :
  Map_get m k = None <-> ~ In k (map fst m).
Proof.
  induction m as [|[k' v] m IH]; simpl.
  - split; auto.
  - destruct (String.eqb k' k) eqn:E.
    + apply String.eqb_eq in E. split; [discriminate|]. intros N.
      elim N. now left.
    + apply String.eqb_neq in E. rewrite IH. split.
      * intros N [H|H]; [now apply E|now apply N].
      * intros N H. apply N. now right.
Qed.

Lemma Map_set_keys (m : ClassEntityMap) (k : string) (v : list IEntity) :
  map fst (Map_set m k v)
  = match Map_get m k with
    | Some _ => map fst m
    | None => map fst m ++ [k]
    end.
Proof.
  induction m as [|[k' v'] m IH]; simpl; [reflexivity|].
  destruct (String.eqb k' k) eqn:E; simpl.
  - apply String.eqb_eq in E. now subst.
  - rewrite IH. destruct (Map_get m k); reflexivity.
Qed.

Lemma Map_set_In (m : ClassEntityMap) (k k' : string) (v v' : list IEntity) :
  In (k', v') (Map_set m k v) -> (k', v') = (k, v) \/ In (k', v') m.
Proof.
  induction m as [|[k0 v0] m IH]; simpl.
  - intros [H|[]]. left. now symmetry.
  - destruct (String.eqb k0 k); simpl.
    + intros [H|H]; [left; now symmetry|right; now right].
    + intros [H|H]; [right; now left|].
      destruct (IH H) as [H'|H']; [now left|right; now right].
Qed.

Section ClassEntityMapContents.
Context {ext : Collaborators}.
Variable d : DB.
Variable ops : list ICreateEntityOperation.

Lemma fold_fileEntity_get (entities : list IEntity) (m : ClassEntityMap)
  (className : string) :
  Map_get (fold_left (fileEntity d ops) entities m) className
  = match Map_get m className,
          filter (hasClassName d ops className) entities with
    | Some es0, es => Some (es0 ++ es)
    | None, [] => None
    | None, es => Some es
    end.
Proof.
  revert m. induction entities as [|e entities IH]; intros m.
  - simpl. destruct (Map_get m className); [now rewrite app_nil_r|reflexivity].
  - cbn [fold_left filter]. rewrite IH. unfold fileEntity, hasClassName.
    destruct (getClassName d e ops) as [n|].
    + destruct (String.eqb n className) eqn:E.
      * apply String.eqb_eq in E. subst n. rewrite Map_get_set_same.
        destruct (Map_get m className) as [es0|].
        -- now rewrite <- app_assoc.
        -- reflexivity.
      * apply String.eqb_neq in E. now rewrite (Map_get_set_other _ _ E).
    + reflexivity.
Qed.

(** The first loop of [transaction] files under each class name the
    entities of the batch that resolve to it, in the order of the batch; a
    class name no entity resolves to is not a key. *)
Theorem buildClassEntityMap_get (entities : list IEntity)
  (className : string) :
  Map_get (buildClassEntityMap d ops entities) className
  = match filter (hasClassName d ops className) entities with
    | [] => None
    | es => Some es
    end.
Proof.
  unfold buildClassEntityMap. now rewrite fold_fileEntity_get.
Qed.

Lemma fold_fileEntity_keys (entities : list IEntity) (m : ClassEntityMap) :
  NoDup (map fst m) ->
  NoDup (map fst (fold_left (fileEntity d ops) entities m)).
Proof.
  revert m. induction entities as [|e entities IH]; intros m N; simpl.
  - exact N.
  - apply IH. unfold fileEntity.
    destruct (getClassName d e ops) as [n|]; [|exact N].
    rewrite Map_set_keys.
    destruct (Map_get m n) eqn:G; [exact N|].
    apply Map_get_None_keys in G.
    apply NoDup_rev in N. rewrite <- (rev_involutive (map fst m ++ [n])).
    apply NoDup_rev. rewrite rev_app_distr. simpl. constructor; [|exact N].
    now rewrite <- in_rev.
Qed.

(** The class-entity map of a batch has each class name once, however often
    the class occurs in the batch. *)
Theorem buildClassEntityMap_keys_distinct (entities : list IEntity) :
  NoDup (map fst (buildClassEntityMap d ops entities)).
Proof. apply fold_fileEntity_keys. constructor. Qed.

(** A batch-local reference resolves exactly when some entity of the batch
    resolves to the class name it is looked up under and has the referenced
    id as its [indexOf]; an entity of another class with that id does not
    count. *)
Theorem getEntity_of_batch (entities : list IEntity) (className : string)
  (id : Z) :
  getEntity (buildClassEntityMap d ops entities) className id
  = negb (existsb (fun e => hasClassName d ops className e && indexOf_is id e)
            entities).
Proof.
  unfold getEntity, buildClassEntityMap. rewrite fold_fileEntity_get.
  cbn [Map_get]. rewrite <- existsb_filter_conj.
  destruct (filter (hasClassName d ops className) entities) as [|e es] eqn:F.
  - reflexivity.
  - now rewrite isSome_find_existsb.
Qed.

Lemma fold_fileEntity_members (entities : list IEntity) (m : ClassEntityMap) :
  (forall cn es e, In (cn, es) m -> In e es ->
                   getClassName d e ops = Some cn) ->
  forall cn es e,
    In (cn, es) (fold_left (fileEntity d ops) entities m) -> In e es ->
    getClassName d e ops = Some cn.
Proof.
  revert m. induction entities as [|x entities IH]; intros m Hm; simpl.
  - exact Hm.
  - apply IH. intros cn es e HIn He. unfold fileEntity in HIn.
    destruct (getClassName d x ops) as [n|] eqn:Gx; [|now apply (Hm cn es)].
    apply Map_set_In in HIn as [Heq|HIn]; [|now apply (Hm cn es)].
    inversion Heq. subst cn es.
    destruct (Map_get m n) as [es0|] eqn:G.
    + apply in_app_or in He as [He|[<-|[]]]; [|exact Gx].
      apply (Hm n es0); [|exact He].
      clear - G. induction m as [|[k v] m IHm]; simpl in *; [discriminate|].
      destruct (String.eqb k n) eqn:E.
      * apply String.eqb_eq in E. inversion G. subst. now left.
      * right. now apply IHm.
    + destruct He as [<-|[]]. exact Gx.
Qed.

(** Every entity filed in the class-entity map is filed under the class
    name it resolves to. *)
Lemma buildClassEntityMap_members (entities : list IEntity) (cn : string)
  (es : list IEntity) (e : IEntity) :
  In (cn, es) (buildClassEntityMap d ops entities) -> In e es ->
  getClassName d e ops = Some cn.
Proof.
  apply fold_fileEntity_members. intros ? ? ? [].
Qed.

Lemma fold_fileEntity_from_batch (entities : list IEntity)
  (m : ClassEntityMap) (cn : string) (es : list IEntity) (e : IEntity) :
  In (cn, es) (fold_left (fileEntity d ops) entities m) -> In e es ->
  In e entities \/ exists es0, In (cn, es0) m /\ In e es0.
Proof.
  revert m. induction entities as [|x entities IH]; intros m HIn He; simpl in *.
  - right. eauto.
  - destruct (IH _ HIn He) as [H|(es0 & H0 & He0)]; [left; now right|].
    unfold fileEntity in H0.
    destruct (getClassName d x ops) as [n|]; [|right; eauto].
    apply Map_set_In in H0 as [Heq|H0]; [|right; eauto].
    inversion Heq. subst.
    destruct (Map_get m n) as [es1|] eqn:G.
    + apply in_app_or in He0 as [He0|[<-|[]]]; [|left; now left].
      right. exists es1. split; [|exact He0].
      clear - G. induction m as [|[k v] m IHm]; simpl in *; [discriminate|].
      destruct (String.eqb k n) eqn:E.
      * apply String.eqb_eq in E. inversion G. subst. now left.
      * right. now apply IHm.
    + destruct He0 as [<-|[]]. left. now left.
Qed.

Lemma buildClassEntityMap_from_batch (entities : list IEntity) (cn : string)
  (es : list IEntity) (e : IEntity) :
  In (cn, es) (buildClassEntityMap d ops entities) -> In e es ->
  In e entities.
Proof.
  intros HIn He.
  destruct (fold_fileEntity_from_batch entities [] _ _ _ HIn He)
    as [H|(es0 & [] & _)].
  exact H.
Qed.

(** An entity whose class name does not resolve leaves no mark on the
    class-entity map, wherever it stands in the batch. *)
Lemma buildClassEntityMap_skips (before after : list IEntity) (e : IEntity) :
  getClassName d e ops = None ->
  buildClassEntityMap d ops (before ++ e :: after)
  = buildClassEntityMap d ops (before ++ after).
Proof.
  intros G. unfold buildClassEntityMap.
  rewrite !fold_left_app. simpl. unfold fileEntity at 2. now rewrite G.
Qed.

End ClassEntityMapContents.

(** ** [transaction] *)

Lemma queriesOf_batch_local (l : list ReferenceCheck) :
  (forall rc, In rc l -> existing (rc_ref rc) = false) -> queriesOf l = [].
Proof.
  induction l as [|rc l IH]; intros H; [reflexivity|].
  unfold queriesOf in *. simpl. rewrite (H rc) by now left.
  simpl. apply IH. intros x Hx. apply H. now right.
Qed.

Lemma scanned_incl {A : Type} (fails : A -> bool) (l : list A) (x : A) :
  In x (scanned fails l) -> In x l.
Proof.
  destruct (scanned_prefix fails l) as (rest & E). intros H.
  rewrite E. apply in_or_app. now left.
Qed.

Lemma flat_map_nil {A B : Type} (f : A -> list B) (l : list A) :
  (forall x, In x l -> f x = []) -> flat_map f l = [].
Proof.
  induction l as [|x l IH]; intros H; simpl; [reflexivity|].
  rewrite (H x) by now left. apply IH. intros y Hy. apply H. now right.
Qed.

Section ValidatorFacts.
Context {ext : Collaborators}.

(** A batch in which no entity carries a reference is never ignored, and
    [transaction] does not query the store for it.  The empty batch, and a
    batch of entities of classes without references, are instances. *)
Theorem transaction_without_references
  (ops : list ICreateEntityOperation) (entities : list IEntity) (w : World) :
  (forall e cn, In e entities -> getClassName (db w) e ops = Some cn ->
                entityReferences cn e = []) ->
  exists w',
    await (R' := unit) (transaction ops entities) w = (Normal false, w')
    /\ db w' = db w
    /\ storeQueries (trace w') = storeQueries (trace w).
Proof.
  intros H.
  assert (E : batchReferences (buildClassEntityMap (db w) ops entities) = []).
  { unfold batchReferences. apply flat_map_nil. intros [cn es] HIn.
    apply flat_map_nil. intros e He. apply H.
    - exact (buildClassEntityMap_from_batch _ _ _ _ _ _ HIn He).
    - exact (buildClassEntityMap_members _ _ _ _ _ _ HIn He). }
  destruct (transaction_scan ops entities w) as (w' & R & D & T).
  rewrite E in R, T. simpl in R, T. rewrite app_nil_r in T.
  exists w'. auto.
Qed.

(** A batch all of whose references are batch-local ([existing = false]) is
    validated without a single store query. *)
Theorem transaction_batch_local_references_need_no_store
  (ops : list ICreateEntityOperation) (entities : list IEntity) (w : World) :
  (forall rc,
      In rc (batchReferences (buildClassEntityMap (db w) ops entities)) ->
      existing (rc_ref rc) = false) ->
  exists ignore w',
    await (R' := unit) (transaction ops entities) w = (Normal ignore, w')
    /\ storeQueries (trace w') = storeQueries (trace w).
Proof.
  intros H.
  destruct (transaction_scan ops entities w) as (w' & R & D & T).
  eexists. exists w'. split; [exact R|].
  rewrite T, queriesOf_batch_local; [apply app_nil_r|].
  intros rc Hrc. apply H. now apply scanned_incl in Hrc.
Qed.

Lemma buildClassEntityMap_ext (d2 d : DB)
  (ops : list ICreateEntityOperation) (entities : list IEntity) :
  (forall e, getClassName d2 e ops = getClassName d e ops) ->
  buildClassEntityMap d2 ops entities = buildClassEntityMap d ops entities.
Proof.
  intros Hc. unfold buildClassEntityMap.
  generalize (@nil (string * list IEntity)).
  induction entities as [|e entities IH]; intros m; simpl; [reflexivity|].
  rewrite IH. unfold fileEntity. now rewrite Hc.
Qed.

Lemma unresolved_on_larger_store (d d2 : DB) (m : ClassEntityMap)
  (l : list ReferenceCheck) :
  (forall M id, isSome (lookup d M id) = true ->
                isSome (lookup d2 M id) = true) ->
  existsb (unresolved d m) l = false ->
  existsb (unresolved d2 m) l = false.
Proof.
  intros Hl. induction l as [|rc l IH]; [reflexivity|].
  simpl. intros Ex. apply orb_false_iff in Ex as [Hrc Hl'].
  rewrite (IH Hl'), orb_false_r.
  unfold unresolved in *. destruct (existing (rc_ref rc)); [|exact Hrc].
  apply negb_false_iff in Hrc. apply negb_false_iff. now apply Hl.
Qed.

(** Rows added to the store never turn a batch that passes into one that
    is ignored: if the class names of the batch resolve alike on both
    stores and the second store holds every row the first one holds, a
    batch that passes on the first passes on the second. *)
Theorem transaction_passes_on_larger_store
  (ops : list ICreateEntityOperation) (entities : list IEntity)
  (w w2 w' : World) :
  (forall e, getClassName (db w2) e ops = getClassName (db w) e ops) ->
  (forall m id, isSome (lookup (db w) m id) = true ->
                isSome (lookup (db w2) m id) = true) ->
  await (R' := unit) (transaction ops entities) w = (Normal false, w') ->
  fst (await (R' := unit) (transaction ops entities) w2) = Normal false.
Proof.
  intros Hc Hl R.
  destruct (transaction_scan ops entities w) as (w1 & R1 & _).
  destruct (transaction_scan ops entities w2) as (w3 & R2 & _).
  rewrite R1 in R. inversion R as [[Ex W]]. clear R W.
  rewrite R2. simpl. f_equal.
  rewrite (buildClassEntityMap_ext (db w2) (db w) ops entities Hc).
  rewrite Ex. now apply (unresolved_on_larger_store (db w) (db w2)).
Qed.

(** An entity of the batch whose class name does not resolve is invisible
    to the validator, whatever properties it carries: [transaction] behaves
    as on the batch without it. *)
Theorem transaction_skips_entities_of_unresolved_class
  (ops : list ICreateEntityOperation) (before after : list IEntity)
  (e : IEntity) (w : World) :
  getClassName (db w) e ops = None ->
  transaction ops (before ++ e :: after) w
  = transaction ops (before ++ after) w.
Proof.
  intros G. unfold transaction.
  now rewrite (buildClassEntityMap_skips _ _ before after _ G).
Qed.

End ValidatorFacts.

(** [transaction_without_references] on a batch of one Channel without
    language. *)
Lemma transaction_without_references_witness :
  exists w',
    await (R' := unit) (transaction (ext := sample) [1] [{| indexOf := Some 0; properties := [] |}])
      (start storeWithVideo5)
    = (Normal false, w')
    /\ db w' = db (start storeWithVideo5)
    /\ storeQueries (trace w') = storeQueries (trace (start storeWithVideo5)).
Proof.
  apply (@transaction_without_references sample [1]
           [{| indexOf := Some 0; properties := [] |}]
           (start storeWithVideo5)).
  intros e cn [<-|[]] H. vm_compute in H. inversion H. reflexivity.
Defined.

(** [transaction_batch_local_references_need_no_store] on the sample batch
    of a Video and the Channel it points at. *)
Lemma transaction_batch_local_references_need_no_store_witness :
  exists ignore w',
    await (R' := unit)
      (transaction (ext := sample) [8; 1] [videoOfNewChannel; newChannel])
      (start emptyDB)
    = (Normal ignore, w')
    /\ storeQueries (trace w') = storeQueries (trace (start emptyDB)).
Proof.
  apply (@transaction_batch_local_references_need_no_store sample [8; 1]
           [videoOfNewChannel; newChannel] (start emptyDB)).
  intros rc [<-|[]]. reflexivity.
Defined.

(** [transaction_passes_on_larger_store] for a Channel whose [language]
    points at the persisted Language 3: the batch passes on the store that
    holds Language 3 because the store has that row, and passes on the
    store that holds Video 5 as well; on the empty store it is ignored. *)
Lemma transaction_passes_on_larger_store_witness :
  fst (await (R' := unit)
         (transaction (ext := sample) [1] [channelOfLanguage3])
         (start emptyDB))
  = Normal true
  /\ fst (await (R' := unit)
            (transaction (ext := sample) [1] [channelOfLanguage3])
            (start storeWithLanguage3))
     = Normal false
  /\ fst (await (R' := unit)
            (transaction (ext := sample) [1] [channelOfLanguage3])
            (start storeWithLanguage3AndVideo5))
     = Normal false.
Proof.
  split; [reflexivity|]. split; [reflexivity|].
  apply (@transaction_passes_on_larger_store sample [1]
           [channelOfLanguage3] (start storeWithLanguage3)
           (start storeWithLanguage3AndVideo5)
           {| db := storeWithLanguage3;
              trace := [Decode channelPropertyNamesWithId;
                        DbGet Language (IdString "3")] |}).
  - reflexivity.
  - intros m id H. unfold lookup, matches in *.
    cbn -[String.eqb] in *.
    destruct m; try discriminate. destruct id as [s|]; try discriminate.
    cbn -[String.eqb] in *.
    destruct (String.eqb "3" s); [reflexivity|discriminate].
  - reflexivity.
Defined.

(** [transaction_skips_entities_of_unresolved_class] for a stray entity with
    a dangling reference, between the Video and its Channel. *)
Lemma transaction_skips_entities_of_unresolved_class_witness :
  transaction (ext := sample) [8; 1]
    ([videoOfNewChannel] ++ strayEntity :: [newChannel]) (start emptyDB)
  = transaction (ext := sample) [8; 1]
      ([videoOfNewChannel] ++ [newChannel]) (start emptyDB).
Proof.
  apply (@transaction_skips_entities_of_unresolved_class sample [8; 1]
           [videoOfNewChannel] [newChannel] strayEntity (start emptyDB)).
  reflexivity.
Defined.

(** ** The single-entity checks *)

Lemma prop_withExisting (b : bool) (props : Props) (f : string) :
  prop (withExisting b props) f
  = option_map (fun r => {| entityId := entityId r; existing := b |})
      (prop props f).
Proof.
  induction props as [|[k r] props IH]; simpl; [reflexivity|].
  destruct (String.eqb k f); [reflexivity|exact IH].
Qed.

(** The run of a single-entity check, query by query. *)
Lemma shouldIgnore_run
  (c : ContentDirectoryKnownClasses) (check : Props -> Async bool bool)
  (props : Props) (w : World) :
  shouldIgnoreOf c = Some check ->
  let refs := presentReferences props (referenceFields c) in
  await (R' := unit) (check props) w
  = (Normal (existsb (storeMisses (db w)) refs),
     {| db := db w;
        trace := trace w ++ lookupsOf (scanned (storeMisses (db w)) refs) |}).
Proof.
  intros H.
  destruct c; inversion H; subst check; clear H;
    unfold await, channel, videoMedia, video, mediaLocation, license,
      featuredVideo, absentFromStore, db_get, bind, log, ret, return_,
      presentReferences, storeMisses, lookupsOf;
    simpl;
    repeat match goal with
           | |- context [prop props ?f] => destruct (prop props f) eqn:?; simpl
           | |- context [lookup ?d ?m ?i] =>
               destruct (lookup d m i) eqn:?; simpl
           end;
    rewrite <- ?app_assoc; simpl; rewrite ?app_nil_r;
    try reflexivity; destruct w; reflexivity.
Qed.

(** What each of [channel], [videoMedia], [video], [mediaLocation],
    [license] and [featuredVideo] does: it goes through the references of
    the bag in the order in which the function reads them, asks the store
    for the row of each one under the referenced id, answers [true] at the
    first one that has no row and asks for nothing more; with no missing
    row, and with no reference at all, it answers [false].  The store is
    not written. *)
Theorem shouldIgnore_queries_in_order_until_first_miss
  (c : ContentDirectoryKnownClasses) (check : Props -> Async bool bool)
  (props : Props) (w : World) :
  shouldIgnoreOf c = Some check ->
  let refs := presentReferences props (referenceFields c) in
  await (R' := unit) (check props) w
  = (Normal (existsb (storeMisses (db w)) refs),
     {| db := db w;
        trace := trace w ++ lookupsOf (scanned (storeMisses (db w)) refs) |}).
Proof. apply shouldIgnore_run. Qed.

(** [shouldIgnore_queries_in_order_until_first_miss] for [video] on a bag
    with a channel and a language. *)
Lemma shouldIgnore_queries_in_order_until_first_miss_witness :
  await (R' := unit)
    (video [("channel", {| entityId := 42; existing := true |});
            ("language", {| entityId := 3; existing := true |})])
    (start storeWithVideo5)
  = (Normal true,
     {| db := storeWithVideo5;
        trace := [DbGet Channel (IdString "42")] |}).
Proof.
  apply (@shouldIgnore_queries_in_order_until_first_miss VIDEO video
           [("channel", {| entityId := 42; existing := true |});
            ("language", {| entityId := 3; existing := true |})]
           (start storeWithVideo5)).
  reflexivity.
Defined.

(** The single-entity checks never read the [existing] flag: a reference
    marked as batch-local is looked up in the store like any other. *)
Theorem shouldIgnore_disregards_existing_flag
  (c : ContentDirectoryKnownClasses) (check : Props -> Async bool bool)
  (b : bool) (props : Props) (w : World) :
  shouldIgnoreOf c = Some check ->
  check (withExisting b props) w = check props w.
Proof.
  intros H.
  destruct c; inversion H; subst check; clear H;
    unfold channel, videoMedia, video, mediaLocation, license, featuredVideo;
    rewrite !prop_withExisting;
    repeat match goal with
           | |- context [prop props ?f] => destruct (prop props f) eqn:?; simpl
           end;
    reflexivity.
Qed.

(** [shouldIgnore_disregards_existing_flag] for [channel]. *)
Lemma shouldIgnore_disregards_existing_flag_witness :
  channel (withExisting false
             [("language", {| entityId := 3; existing := true |})])
    (start emptyDB)
  = channel [("language", {| entityId := 3; existing := true |})]
      (start emptyDB).
Proof.
  apply (@shouldIgnore_disregards_existing_flag CHANNEL channel false
           [("language", {| entityId := 3; existing := true |})]
           (start emptyDB)).
  reflexivity.
Defined.

Lemma existsb_agree {A : Type} (p q : A -> bool) (l : list A) :
  (forall x, In x l -> p x = q x) -> existsb p l = existsb q l.
Proof.
  induction l as [|x l IH]; intros H; simpl; [reflexivity|].
  rewrite (H x) by now left. f_equal. apply IH. intros y Hy. apply H. now right.
Qed.

Lemma presentReferences_In (props : Props) (fields : list ReferenceField)
  (rc : ReferenceCheck) :
  In rc (presentReferences props fields) ->
  exists f M whereId C,
    In (f, M, whereId, C) fields
    /\ prop props f = Some (rc_ref rc)
    /\ rc_where rc = whereId (rc_ref rc).
Proof.
  unfold presentReferences. intros H.
  apply in_flat_map in H as ([[[f M] whereId] C] & HIn & Hrc).
  destruct (prop props f) as [r|] eqn:P; [|destruct Hrc].
  destruct Hrc as [<-|[]]. exists f, M, whereId, C. auto.
Qed.

Section ValidatorAndChecks.
Context {ext : Collaborators}.

(** On a batch of a single entity whose references all point at persisted
    entities, [transaction] gives the verdict of the single-entity check of
    the class on the same property bag, for every class with references
    but FeaturedVideo. *)
Theorem transaction_on_single_entity_agrees_with_check
  (ops : list ICreateEntityOperation) (e : IEntity) (cn : string)
  (c : ContentDirectoryKnownClasses) (check : Props -> Async bool bool)
  (w : World) :
  getClassName (db w) e ops = Some cn ->
  switchOn cn = Some c ->
  shouldIgnoreOf c = Some check ->
  c <> FEATUREDVIDEOS ->
  (forall f r,
      prop (setEntityPropertyValues (properties e) (layoutOf c)) f = Some r ->
      existing r = true) ->
  fst (await (R' := unit) (transaction ops [e]) w)
  = fst (await (R' := unit)
           (check (setEntityPropertyValues (properties e) (layoutOf c))) w).
Proof.
  intros G S C N Hex.
  destruct (transaction_scan ops [e] w) as (w' & R & _).
  rewrite R.
  rewrite (shouldIgnore_run c _ w C).
  cbn [fst]. f_equal.
  assert (M : buildClassEntityMap (db w) ops [e] = [(cn, [e])]).
  { unfold buildClassEntityMap, fileEntity. simpl. now rewrite G. }
  rewrite M. unfold batchReferences. simpl. rewrite !app_nil_r.
  unfold entityReferences. rewrite S.
  apply existsb_agree. intros rc Hrc.
  destruct (presentReferences_In _ _ _ Hrc) as (f & Md & wh & C' & HIn & P & W).
  unfold unresolved, storeMisses.
  rewrite (Hex f _ P), W.
  now rewrite (@referenceFields_query_by_id c f Md wh C' (rc_ref rc) HIn N).
Qed.

End ValidatorAndChecks.

(** [transaction_on_single_entity_agrees_with_check] for a Channel whose
    language is not in the store. *)
Lemma transaction_on_single_entity_agrees_with_check_witness :
  fst (await (R' := unit)
         (transaction (ext := sample) [1]
            [{| indexOf := Some 0; properties := [pointer 3] |}])
         (start storeWithVideo5))
  = fst (await (R' := unit)
           (channel
              (setEntityPropertyValues (Collaborators := sample)
                 (properties {| indexOf := Some 0; properties := [pointer 3] |})
                 (layoutOf CHANNEL)))
           (start storeWithVideo5)).
Proof.
  apply (@transaction_on_single_entity_agrees_with_check sample [1]
           {| indexOf := Some 0; properties := [pointer 3] |} "Channel"
           CHANNEL channel (start storeWithVideo5)).
  - reflexivity.
  - reflexivity.
  - reflexivity.
  - discriminate.
  - intros f r H. cbn -[String.eqb] in H.
    destruct (String.eqb "language" f); [|discriminate].
    now inversion H.
Defined.

(* ================================================================== *)
(** * Further properties of index.ts *)



Section DispatcherFacts.
Context {ext : Collaborators}.


(** For an entity of a class without references (Category, KnownLicense,
    UserDefinedLicense, JoystreamMediaLocation, HttpMediaLocation, Language,
    VideoMediaEncoding), a standalone schema-attach event decodes the
    property values with the layout of that class and awaits the create
    handler of that class, called with the block number and the entity id
    of the event; the outcome of the handler, an error included, is the
    outcome of the event. *)
Theorem schema_attach_of_plain_class_awaits_create_handler
  (event : SubstrateEvent) (w : World) (kc : IKnownClass)
  (ce : option ClassEntity) (c : ContentDirectoryKnownClasses) :
  isTransaction (extrinsic event) = false ->
  resolveClass (db w) (stringIfyEntityId event) = (Some kc, ce) ->
  switchOn (name kc) = Some c ->
  shouldIgnoreOf c = None ->
  await (R' := unit) (contentDirectory_EntitySchemaSupportAdded event) w
  = await (R' := unit)
      (createEntity c
         {| arg_block := blockNumber event;
            arg_id := stringIfyEntityId event |}
         None (setProperties event (layoutOf c)))
      {| db := db w;
         trace := (trace w ++ [Decode (layoutOf c)])
                  ++ [Handler Create c (stringIfyEntityId event)] |}.
Proof.
  intros T R S C.
  unfold await at 1, contentDirectory_EntitySchemaSupportAdded, getKnownClass.
  rewrite T. unfold bind at 1, await at 1. cbn [where_id]. rewrite R, S.
  destruct c; try discriminate C;
    unfold decode_setProperties, createCategory, createKnownLicense,
      createUserDefinedLicense, createJoystreamMediaLocation,
      createHttpMediaLocation, createLanguage, createVideoMediaEncoding,
      create, await, bind, log, ret;
    cbn [db trace layoutOf arg_id];
    match goal with
    | |- context [createEntity ?c ?a ?o ?p ?w0] =>
        destruct (createEntity c a o p w0) as [[[]|[]|?] ?]
    end; reflexivity.
Qed.

(** The same for a standalone property-update event and the update handler
    of the class; the property values are decoded from the event to which
    the handler has appended the third extrinsic argument. *)
Theorem update_of_plain_class_awaits_update_handler
  (event : SubstrateEvent) (x : SubstrateExtrinsic) (w : World)
  (kc : IKnownClass) (ce : option ClassEntity)
  (c : ContentDirectoryKnownClasses) :
  extrinsic event = Some x ->
  isTransaction (extrinsic event) = false ->
  resolveClass (db w) (stringIfyEntityId event) = (Some kc, ce) ->
  switchOn (name kc) = Some c ->
  shouldIgnoreOf c = None ->
  await (R' := unit) (contentDirectory_EntityPropertyValuesUpdated event) w
  = await (R' := unit)
      (updateEntity c {| where_id := stringIfyEntityId event |}
         (setProperties (pushArg event x (nth 2 (args x) ArgUndefined))
            (layoutOf c))
         None)
      {| db := db w;
         trace := (trace w ++ [Decode (layoutOf c)])
                  ++ [Handler Update c (stringIfyEntityId event)] |}.
Proof.
  intros X T R S C.
  unfold await at 1, contentDirectory_EntityPropertyValuesUpdated,
    getKnownClass.
  rewrite T, X. unfold bind at 1, await at 1. cbn [where_id]. rewrite R, S.
  destruct c; try discriminate C;
    unfold decode_setProperties, updateCategoryEntityPropertyValues,
      updateKnownLicenseEntityPropertyValues,
      updateUserDefinedLicenseEntityPropertyValues,
      updateJoystreamMediaLocationEntityPropertyValues,
      updateHttpMediaLocationEntityPropertyValues,
      updateLanguageEntityPropertyValues,
      updateVideoMediaEncodingEntityPropertyValues,
      update, await, bind, log, ret;
    cbn [db trace layoutOf where_id];
    match goal with
    | |- context [updateEntity ?c ?a ?p ?o ?w0] =>
        destruct (updateEntity c a p o w0) as [[[]|[]|?] ?]
    end; reflexivity.
Qed.

(** When the registry resolves the entity to a class whose name is not a
    member of the enumeration, each of the three handlers throws
    'Unknown class name: ' followed by that name, before it decodes
    anything, calls any handler or touches the store.  The removal handler
    does so for every event; the other two for a standalone event (and, for
    an update, one that carries its extrinsic). *)
Theorem class_outside_enumeration_is_rejected
  (event : SubstrateEvent) (w : World) (kc : IKnownClass)
  (ce : option ClassEntity) :
  resolveClass (db w) (stringIfyEntityId event) = (Some kc, ce) ->
  switchOn (name kc) = None ->
  await (R' := unit) (contentDirectory_EntityRemoved event) w
  = (Throw (String.append "Unknown class name: " (name kc)), w)
  /\ (isTransaction (extrinsic event) = false ->
      await (R' := unit) (contentDirectory_EntitySchemaSupportAdded event) w
      = (Throw (String.append "Unknown class name: " (name kc)), w))
  /\ (isTransaction (extrinsic event) = false ->
      extrinsic event <> None ->
      await (R' := unit) (contentDirectory_EntityPropertyValuesUpdated event) w
      = (Throw (String.append "Unknown class name: " (name kc)), w)).
Proof.
  intros R S. split; [|split].
  - unfold await.
    now rewrite (EntityRemoved_outside_enumeration event w R S).
  - intros T.
    unfold await, contentDirectory_EntitySchemaSupportAdded, getKnownClass.
    rewrite T. unfold bind at 1, await at 1. cbn [where_id]. rewrite R, S.
    reflexivity.
  - intros T X.
    unfold await, contentDirectory_EntityPropertyValuesUpdated, getKnownClass.
    rewrite T. destruct (extrinsic event) as [x|]; [|now elim X].
    unfold bind at 1, await at 1. cbn [where_id]. rewrite R, S.
    reflexivity.
Qed.

(** A property-update event without extrinsic is rejected with
    'Extrinsic data not found for event: ' followed by the event id, before
    the class of the entity is looked at: the store and the registry play
    no role, and an entity of an unknown class, dropped silently otherwise,
    is rejected as well. *)
Theorem update_without_extrinsic_is_rejected
  (event : SubstrateEvent) (w : World) :
  extrinsic event = None ->
  await (R' := unit) (contentDirectory_EntityPropertyValuesUpdated event) w
  = (Throw (String.append "Extrinsic data not found for event: "
              (event_id event)), w).
Proof.
  intros X. unfold await, contentDirectory_EntityPropertyValuesUpdated.
  rewrite X. reflexivity.
Qed.

(** When the typed remove of the resolved class throws, the removal event
    throws the same error and ends in the state the typed remove left: the
    dispatcher does not remove the ClassEntity row. *)
Theorem failed_typed_remove_aborts_removal
  (event : SubstrateEvent) (w : World) (kc : IKnownClass)
  (ce : option ClassEntity) (c : ContentDirectoryKnownClasses)
  (msg : string) (w1 : World) :
  resolveClass (db w) (stringIfyEntityId event) = (Some kc, ce) ->
  switchOn (name kc) = Some c ->
  await (R' := unit)
    (removeEntity c {| where_id := stringIfyEntityId event |})
    {| db := db w;
       trace := trace w ++ [Handler Remove c (stringIfyEntityId event)] |}
  = (Throw msg, w1) ->
  await (R' := unit) (contentDirectory_EntityRemoved event) w
  = (Throw msg, w1).
Proof.
  intros R S E.
  unfold await at 1. rewrite (EntityRemoved_known event w R S).
  unfold bind. rewrite await_remove. cbn [where_id]. now rewrite E.
Qed.

End DispatcherFacts.


(** [schema_attach_of_plain_class_awaits_create_handler] for the Category
    entity 10. *)
Lemma schema_attach_of_plain_class_awaits_create_handler_witness :
  await (R' := unit)
    (contentDirectory_EntitySchemaSupportAdded (ext := sample)
       (schemaEvent []))
    (start (storeWithEntity10 2 []))
  = await (R' := unit)
      (createEntity (Collaborators := sample) CATEGORY
         {| arg_block := blockNumber (schemaEvent []);
            arg_id := stringIfyEntityId (schemaEvent []) |}
         None
         (setProperties (Collaborators := sample) (schemaEvent [])
            (layoutOf CATEGORY)))
      {| db := db (start (storeWithEntity10 2 []));
         trace := (trace (start (storeWithEntity10 2 []))
                   ++ [Decode (layoutOf CATEGORY)])
                  ++ [Handler Create CATEGORY
                        (stringIfyEntityId (schemaEvent []))] |}.
Proof.
  apply (@schema_attach_of_plain_class_awaits_create_handler sample
           (schemaEvent []) (start (storeWithEntity10 2 []))
           {| name := "Category"; classId := 2 |}
           (Some {| ce_id := "10"; ce_classId := 2; ce_version := 99;
                    ce_happenedIn := 99 |})
           CATEGORY);
    reflexivity.
Defined.

(** [update_of_plain_class_awaits_update_handler] for the Language entity
    10. *)
Lemma update_of_plain_class_awaits_update_handler_witness :
  let x := {| method := "updateEntityPropertyValues";
              args := [ArgScalar 0; ArgScalar 10; ArgValues []] |} in
  await (R' := unit)
    (contentDirectory_EntityPropertyValuesUpdated (ext := sample)
       (updateEvent []))
    (start (storeWithEntity10 9 []))
  = await (R' := unit)
      (updateEntity (Collaborators := sample) LANGUAGE
         {| where_id := stringIfyEntityId (updateEvent []) |}
         (setProperties (Collaborators := sample)
            (pushArg (updateEvent []) x (nth 2 (args x) ArgUndefined))
            (layoutOf LANGUAGE))
         None)
      {| db := db (start (storeWithEntity10 9 []));
         trace := (trace (start (storeWithEntity10 9 []))
                   ++ [Decode (layoutOf LANGUAGE)])
                  ++ [Handler Update LANGUAGE
                        (stringIfyEntityId (updateEvent []))] |}.
Proof.
  apply (@update_of_plain_class_awaits_update_handler sample
           (updateEvent [])
           {| method := "updateEntityPropertyValues";
              args := [ArgScalar 0; ArgScalar 10; ArgValues []] |}
           (start (storeWithEntity10 9 []))
           {| name := "Language"; classId := 9 |}
           (Some {| ce_id := "10"; ce_classId := 9; ce_version := 99;
                    ce_happenedIn := 99 |})
           LANGUAGE);
    reflexivity.
Defined.

(** [class_outside_enumeration_is_rejected] for entity 10 of class id 99,
    which the sample registry names Playlist. *)
Lemma class_outside_enumeration_is_rejected_witness :
  let w := start (storeWithEntity10 99 []) in
  await (R' := unit)
    (contentDirectory_EntityRemoved (ext := sample) (updateEvent [])) w
  = (Throw "Unknown class name: Playlist", w)
  /\ await (R' := unit)
       (contentDirectory_EntitySchemaSupportAdded (ext := sample)
          (updateEvent [])) w
     = (Throw "Unknown class name: Playlist", w)
  /\ await (R' := unit)
       (contentDirectory_EntityPropertyValuesUpdated (ext := sample)
          (updateEvent [])) w
     = (Throw "Unknown class name: Playlist", w).
Proof.
  destruct (@class_outside_enumeration_is_rejected sample (updateEvent [])
              (start (storeWithEntity10 99 []))
              {| name := "Playlist"; classId := 99 |}
              (Some {| ce_id := "10"; ce_classId := 99; ce_version := 99;
                       ce_happenedIn := 99 |})
              eq_refl eq_refl)
    as (Removed & Added & Updated).
  split; [exact Removed|]. split; [now apply Added|].
  apply Updated; [reflexivity|discriminate].
Defined.

(** [update_without_extrinsic_is_rejected] on a store in which entity 10 is
    of an unknown class. *)
Lemma update_without_extrinsic_is_rejected_witness :
  await (R' := unit)
    (contentDirectory_EntityPropertyValuesUpdated (ext := sample)
       updateEventWithoutExtrinsic)
    (start (storeWithEntity10 50 []))
  = (Throw "Extrinsic data not found for event: 0000000103-000001",
     start (storeWithEntity10 50 [])).
Proof.
  apply (@update_without_extrinsic_is_rejected sample
           updateEventWithoutExtrinsic (start (storeWithEntity10 50 []))).
  reflexivity.
Defined.

(** [failed_typed_remove_aborts_removal] with the rejecting remove handler,
    for the Video entity 10 that has no Video row. *)
Lemma failed_typed_remove_aborts_removal_witness :
  await (R' := unit)
    (contentDirectory_EntityRemoved (ext := sampleRejecting)
       (removalEvent "removeEntity"))
    (start (storeWithEntity10 8 []))
  = (Throw "Video not found",
     {| db := storeWithEntity10 8 [];
        trace := [Handler Remove VIDEO "10"] |}).
Proof.
  apply (@failed_typed_remove_aborts_removal sampleRejecting
           (removalEvent "removeEntity") (start (storeWithEntity10 8 []))
           {| name := "Video"; classId := 8 |}
           (Some {| ce_id := "10"; ce_classId := 8; ce_version := 99;
                    ce_happenedIn := 99 |})
           VIDEO "Video not found"
           {| db := storeWithEntity10 8 [];
              trace := [Handler Remove VIDEO "10"] |});
    reflexivity.
Defined.

(** ** The life of a ClassEntity row *)

(** The store an EntityCreated event leaves. *)
Lemma EntityCreated_store (event : SubstrateEvent) (w : World) :
  isTransaction (extrinsic event) = false ->
  exists w',
    await (R' := unit) (contentDirectory_EntityCreated event) w
    = (Normal tt, w')
    /\ typedRows (db w') = typedRows (db w)
    /\ classEntities (db w')
       = filter (fun x => negb (String.eqb (ce_id x)
                                  (toString (param_entityId event))))
           (classEntities (db w))
         ++ [{| ce_id := toString (param_entityId event);
                ce_classId := param_classId event;
                ce_version := blockNumber event;
                ce_happenedIn := blockNumber event |}]
    /\ nextEntityIdRow (db w') = Some (Number_add (param_entityId event) 1)
    /\ blocks (db w')
       = if existsb (Z.eqb (blockNumber event)) (blocks (db w))
         then blocks (db w)
         else blocks (db w) ++ [blockNumber event].
Proof.
  intros T. unfold await, contentDirectory_EntityCreated. rewrite T.
  unfold bind, await, createBlockOrGetFromDatabase, db_save_ClassEntity,
    getOrCreate_nextEntityId, getClassEntity, bind, log.
  destruct (existsb (Z.eqb (blockNumber event)) (blocks (db w)));
    cbn [fst snd c_classId c_entityId db trace];
    eexists; (split; [reflexivity|]); cbn; repeat split; reflexivity.
Qed.

Lemma find_other_after_save {A : Type} (f g : A -> bool) (l : list A)
  (x : A) :
  g x = false ->
  (forall y, g y = true -> f y = false) ->
  find g (filter (fun y => negb (f y)) l ++ [x]) = find g l.
Proof.
  intros Gx Hfg. induction l as [|y l IH]; simpl.
  - now rewrite Gx.
  - destruct (g y) eqn:Gy.
    + rewrite (Hfg y Gy). simpl. now rewrite Gy.
    + destruct (f y); simpl; [exact IH|]. now rewrite Gy.
Qed.

Lemma filter_idempotent {A : Type} (f : A -> bool) (l : list A) :
  filter f (filter f l) = filter f l.
Proof.
  induction l as [|x l IH]; simpl; [reflexivity|].
  destruct (f x) eqn:F; simpl; [now rewrite F, IH|exact IH].
Qed.

(** An EntityCreated event writes the ClassEntity row of its own entity and
    no other: the row recorded under any other id is what it was. *)
Theorem entity_created_keeps_other_class_entities
  (event : SubstrateEvent) (w : World) (id : string) :
  isTransaction (extrinsic event) = false ->
  id <> toString (param_entityId event) ->
  exists w',
    await (R' := unit) (contentDirectory_EntityCreated event) w
    = (Normal tt, w')
    /\ lookupClassEntity (db w') id = lookupClassEntity (db w) id.
Proof.
  intros T N.
  destruct (EntityCreated_store event w T) as (w' & E & _ & C & _).
  exists w'. split; [exact E|].
  unfold lookupClassEntity. rewrite C.
  apply (find_other_after_save
           (fun x => String.eqb (ce_id x) (toString (param_entityId event)))
           (fun c => String.eqb (ce_id c) id)).
  - simpl. apply String.eqb_neq. congruence.
  - intros y Hy. apply String.eqb_eq in Hy. apply String.eqb_neq. congruence.
Qed.

(** Replaying an EntityCreated event changes nothing: the store after the
    second run is the store after the first. *)
Theorem entity_created_replay_is_idempotent
  (event : SubstrateEvent) (w : World) :
  isTransaction (extrinsic event) = false ->
  exists w1 w2,
    await (R' := unit) (contentDirectory_EntityCreated event) w
    = (Normal tt, w1)
    /\ await (R' := unit) (contentDirectory_EntityCreated event) w1
       = (Normal tt, w2)
    /\ db w2 = db w1.
Proof.
  intros T.
  destruct (EntityCreated_store event w T) as (w1 & E1 & R1 & C1 & N1 & B1).
  destruct (EntityCreated_store event w1 T) as (w2 & E2 & R2 & C2 & N2 & B2).
  exists w1, w2. split; [exact E1|]. split; [exact E2|].
  assert (B : existsb (Z.eqb (blockNumber event)) (blocks (db w1)) = true).
  { rewrite B1.
    destruct (existsb (Z.eqb (blockNumber event)) (blocks (db w))) eqn:Ex;
      [exact Ex|].
    rewrite existsb_app. simpl. now rewrite Z.eqb_refl, orb_true_r. }
  rewrite B in B2.
  assert (C : classEntities (db w2) = classEntities (db w1)).
  { rewrite C2, C1, filter_app, filter_idempotent. simpl.
    rewrite String.eqb_refl. simpl. now rewrite app_nil_r. }
  destruct (db w1), (db w2). simpl in *. congruence.
Qed.

Section OrphanRows.
Context {ext : Collaborators}.

(** An entity created with a class id the registry has no name for keeps
    its ClassEntity row for good: a later EntityRemoved event for it
    returns without removing anything. *)
Theorem class_entity_of_unknown_class_survives_removal
  (created removed : SubstrateEvent) (w : World) :
  isTransaction (extrinsic created) = false ->
  classNameOfId (param_classId created) = None ->
  param_entityId removed = param_entityId created ->
  exists w1,
    await (R' := unit) (contentDirectory_EntityCreated created) w
    = (Normal tt, w1)
    /\ await (R' := unit) (contentDirectory_EntityRemoved removed) w1
       = (Normal tt, w1)
    /\ lookupClassEntity (db w1) (toString (param_entityId created))
       = Some {| ce_id := toString (param_entityId created);
                 ce_classId := param_classId created;
                 ce_version := blockNumber created;
                 ce_happenedIn := blockNumber created |}.
Proof.
  intros T U Eid.
  destruct (EntityCreated_store created w T) as (w1 & E & _ & C & _).
  assert (L : lookupClassEntity (db w1) (toString (param_entityId created))
              = Some {| ce_id := toString (param_entityId created);
                        ce_classId := param_classId created;
                        ce_version := blockNumber created;
                        ce_happenedIn := blockNumber created |}).
  { unfold lookupClassEntity. rewrite C.
    apply (find_appended
             (fun x => String.eqb (ce_id x)
                         (toString (param_entityId created)))).
    apply String.eqb_refl. }
  exists w1. split; [exact E|]. split; [|exact L].
  unfold await. rewrite EntityRemoved_unknown; [reflexivity|].
  unfold resolveClass, stringIfyEntityId. rewrite Eid, L. simpl.
  now rewrite U.
Qed.

End OrphanRows.

(** [entity_created_keeps_other_class_entities] for an event that creates
    entity 10 on a store that holds the ClassEntity row of entity 7: the
    row of entity 7 is found unchanged after the event. *)
Lemma entity_created_keeps_other_class_entities_witness :
  lookupClassEntity storeWithEntity7 "7" = Some classEntityOf7
  /\ exists w',
       await (R' := unit) (contentDirectory_EntityCreated (creationEvent 1))
         (start storeWithEntity7)
       = (Normal tt, w')
       /\ lookupClassEntity (db w') "7" = Some classEntityOf7
       /\ isSome (lookupClassEntity (db w') "10") = true.
Proof.
  split; [reflexivity|].
  destruct (@entity_created_keeps_other_class_entities (creationEvent 1)
              (start storeWithEntity7) "7" eq_refl)
    as (w' & Run & Kept); [discriminate|].
  exists w'. split; [exact Run|]. split; [exact Kept|].
  pose proof Run as Run'. vm_compute in Run'.
  inversion Run'. reflexivity.
Defined.

(** [entity_created_replay_is_idempotent] for the creation of entity 10. *)
Lemma entity_created_replay_is_idempotent_witness :
  exists w1 w2,
    await (R' := unit) (contentDirectory_EntityCreated (creationEvent 1))
      (start emptyDB)
    = (Normal tt, w1)
    /\ await (R' := unit) (contentDirectory_EntityCreated (creationEvent 1)) w1
       = (Normal tt, w2)
    /\ db w2 = db w1.
Proof.
  apply (@entity_created_replay_is_idempotent (creationEvent 1)
           (start emptyDB)).
  reflexivity.
Defined.

(** [class_entity_of_unknown_class_survives_removal] for entity 10 created
    with class id 50. *)
Lemma class_entity_of_unknown_class_survives_removal_witness :
  exists w1,
    await (R' := unit) (contentDirectory_EntityCreated (creationEvent 50))
      (start emptyDB)
    = (Normal tt, w1)
    /\ await (R' := unit)
         (contentDirectory_EntityRemoved (ext := sample)
            (removalEvent "removeEntity")) w1
       = (Normal tt, w1)
    /\ lookupClassEntity (db w1)
         (toString (param_entityId (creationEvent 50)))
       = Some {| ce_id := toString (param_entityId (creationEvent 50));
                 ce_classId := param_classId (creationEvent 50);
                 ce_version := blockNumber (creationEvent 50);
                 ce_happenedIn := blockNumber (creationEvent 50) |}.
Proof.
  apply (@class_entity_of_unknown_class_survives_removal sample
           (creationEvent 50) (removalEvent "removeEntity") (start emptyDB));
    reflexivity.
Defined.

(** ** The argument appended by the update handler *)

(** The update handler appends the third extrinsic argument to the
    argument list before it decodes.  Index 3 of the list the decoder sees
    holds that third argument when the extrinsic has three arguments or
    fewer ([undefined] when it has fewer than three); with four arguments
    or more, index 3 holds the original fourth argument and the appended
    one is out of the decoder's sight. *)
Theorem appended_argument_is_at_index_3_only_for_short_extrinsics
  (event : SubstrateEvent) (x : SubstrateExtrinsic) :
  exists x',
    extrinsic (pushArg event x (nth 2 (args x) ArgUndefined)) = Some x'
    /\ method x' = method x
    /\ List.length (args x') = S (List.length (args x))
    /\ nth 3 (args x') ArgUndefined
       = if Nat.leb (List.length (args x)) 3
         then nth 2 (args x) ArgUndefined
         else nth 3 (args x) ArgUndefined.
Proof.
  eexists. split; [reflexivity|]. cbn [method args].
  split; [reflexivity|]. split.
  - rewrite length_app. simpl. lia.
  - destruct (args x) as [|a0 [|a1 [|a2 [|a3 rest]]]]; reflexivity.
Qed.
